(** * Persons API of holocron: schemas, store and route handlers

    A shallow embedding of [app/schemas.py] and [app/routers/person.py].
    Request validation (pydantic), the relational store (SQLAlchemy over
    PostgreSQL) and the three route handlers are written as Rocq functions
    with explicit state passing: a handler takes the store and the clock
    reading and returns a response together with the new store. *)

From Stdlib Require Import List ZArith Lia Bool String Ascii Permutation Sorted.
Import ListNotations.
Open Scope string_scope.
Open Scope Z_scope.

(** ** Characters and strings *)

Module Str.

(** White space removed by [strip_whitespace=True] (ASCII range). *)
Definition is_space (c : ascii) : bool :=
  let n := nat_of_ascii c in
  ((9 <=? n)%nat && (n <=? 13)%nat) || (n =? 32)%nat.

Fixpoint lstrip (l : list ascii) : list ascii :=
  match l with
  | [] => []
  | c :: l' => if is_space c then lstrip l' else l
  end.

Fixpoint rstrip (l : list ascii) : list ascii :=
  match l with
  | [] => []
  | c :: l' =>
      match rstrip l' with
      | [] => if is_space c then [] else [c]
      | r => c :: r
      end
  end.

Definition strip (s : string) : string :=
  string_of_list_ascii (rstrip (lstrip (list_ascii_of_string s))).

(** ASCII lower-casing, the case folding of ILIKE on ASCII text. *)
Definition lower_ascii (c : ascii) : ascii :=
  let n := nat_of_ascii c in
  if ((65 <=? n)%nat && (n <=? 90)%nat)%bool then ascii_of_nat (n + 32) else c.

Definition lower (l : list ascii) : list ascii := map lower_ascii l.

(** SQL LIKE: [%] matches any run of characters, [_] any one character,
    a backslash takes the next pattern character literally.  A pattern
    that ends in a lone backslash is an error in PostgreSQL; the patterns
    built by [list_persons] always end in [%], so it is mapped to
    [false] here. *)
Fixpoint like (pat : list ascii) : list ascii -> bool :=
  match pat with
  | [] => fun s => match s with [] => true | _ => false end
  | c :: pat' =>
      if Ascii.eqb c "%" then
        fix star (s : list ascii) : bool :=
          like pat' s || match s with [] => false | _ :: s' => star s' end
      else if Ascii.eqb c "_" then
        fun s => match s with [] => false | _ :: s' => like pat' s' end
      else if Ascii.eqb c "\" then
        match pat' with
        | [] => fun _ => false
        | e :: pat'' =>
            fun s => match s with
                     | [] => false
                     | d :: s' => Ascii.eqb e d && like pat'' s'
                     end
        end
      else
        fun s => match s with
                 | [] => false
                 | d :: s' => Ascii.eqb c d && like pat' s'
                 end
  end.

(** [column.ilike(pattern)] on a non-NULL column value. *)
Definition ilike (value pattern : string) : bool :=
  like (lower (list_ascii_of_string pattern)) (lower (list_ascii_of_string value)).

(** The specification's wording: [needle] occurs in [hay], ignoring case. *)
Fixpoint is_prefix (p s : list ascii) : bool :=
  match p, s with
  | [], _ => true
  | _ :: _, [] => false
  | a :: p', b :: s' => Ascii.eqb a b && is_prefix p' s'
  end.

Fixpoint occurs (p s : list ascii) : bool :=
  is_prefix p s || match s with [] => false | _ :: s' => occurs p s' end.

Definition contains_ci (hay needle : string) : bool :=
  occurs (lower (list_ascii_of_string needle)) (lower (list_ascii_of_string hay)).

(** Python truthiness of a [str]. *)
Definition truthy (s : string) : bool := negb (String.eqb s "").

End Str.

(** ** Schemas ([app/schemas.py]) *)

(** A calendar date as pydantic hands it to the handlers; parsing the ISO
    text of a date is pydantic's own and is outside this development. *)
Record date := Date { year : Z; month : Z; day : Z }.

(** Option bind, for validators that stop at the first failing field. *)
Definition obind {A B : Type} (o : option A) (f : A -> option B) : option B :=
  match o with
  | Some a => f a
  | None => None
  end.

Notation "x <- e ;; k" := (obind e (fun x => k))
  (at level 61, e at next level, right associativity).

(** [Annotated[str, StringConstraints(strip_whitespace=True, min_length=..,
    max_length=..)]]: the value is stripped first, the length of the
    stripped value is checked, and the stripped value is kept.  Texts are
    taken to be ASCII, where the characters that pydantic counts are the
    bytes that [String.length] counts. *)
Definition StringConstraints (min_length : nat) (max_length : option nat)
  (s : string) : option string :=
  let v := Str.strip s in
  let n := String.length v in
  if ((min_length <=? n)%nat &&
      match max_length with Some m => (n <=? m)%nat | None => true end)%bool
  then Some v else None.

(** [StringConstraints(strip_whitespace=True, pattern="^(lit)$")]. *)
Definition StringLiteral (lit : string) (s : string) : option string :=
  let v := Str.strip s in
  if String.eqb v lit then Some v else None.

(** A required field: missing (or null) fails. *)
Definition required {A : Type} (o : option A) : option A := o.

(** An [Optional[...] = Field(None)] field: missing or null is [None],
    a present value has to validate. *)
Definition optional {A B : Type} (f : A -> option B) (o : option A)
  : option (option B) :=
  match o with
  | None => Some None
  | Some a => x <- f a ;; Some (Some x)
  end.

Module NaturalPersonDetailsBase.
Record t := Build {
  curp : string;
  rfc : string;
  name : string;
  first_last_name : string;
  second_last_name : option string;
  date_of_birth : option date }.
End NaturalPersonDetailsBase.

Module JuridicalPersonDetailsBase.
Record t := Build {
  rfc : string;
  legal_name : string;
  incorporation_date : option date }.
End JuridicalPersonDetailsBase.

(** The JSON object under ["details"] of a create request: every key the
    two detail schemas know may be present or not; keys neither schema
    knows (such as a caller-supplied [full_name]) are ignored by pydantic
    and are kept only so that this can be stated. *)
Module RawDetails.
Record t := Build {
  curp : option string;
  rfc : option string;
  name : option string;
  first_last_name : option string;
  second_last_name : option string;
  date_of_birth : option date;
  legal_name : option string;
  incorporation_date : option date;
  full_name : option string }.
End RawDetails.

(** The JSON body of [POST /persons/].  [active] is absent ([None]), null
    ([Some None]) or a boolean. *)
Module RawPersonCreate.
Record t := Build {
  type : string;
  active : option (option bool);
  details : RawDetails.t }.
End RawPersonCreate.

Definition validate_NaturalPersonDetailsBase (r : RawDetails.t)
  : option NaturalPersonDetailsBase.t :=
  curp <- obind (required (RawDetails.curp r)) (StringConstraints 18 (Some 18%nat)) ;;
  rfc <- obind (required (RawDetails.rfc r)) (StringConstraints 12 (Some 13%nat)) ;;
  name <- obind (required (RawDetails.name r)) (StringConstraints 0 (Some 100%nat)) ;;
  first_last_name <-
    obind (required (RawDetails.first_last_name r)) (StringConstraints 0 (Some 100%nat)) ;;
  second_last_name <-
    optional (StringConstraints 0 (Some 100%nat)) (RawDetails.second_last_name r) ;;
  Some (NaturalPersonDetailsBase.Build curp rfc name first_last_name
          second_last_name (RawDetails.date_of_birth r)).

Definition validate_JuridicalPersonDetailsBase (r : RawDetails.t)
  : option JuridicalPersonDetailsBase.t :=
  rfc <- obind (required (RawDetails.rfc r)) (StringConstraints 12 (Some 13%nat)) ;;
  legal_name <-
    obind (required (RawDetails.legal_name r)) (StringConstraints 0 (Some 200%nat)) ;;
  Some (JuridicalPersonDetailsBase.Build rfc legal_name
          (RawDetails.incorporation_date r)).

(** [details] of a [PersonCreate] object: the shape of the variant. *)
Inductive Details :=
| NaturalDetails (d : NaturalPersonDetailsBase.t)
| JuridicalDetails (d : JuridicalPersonDetailsBase.t).

(** An object of [PersonCreate = Union[PersonCreateNatural,
    PersonCreateJuridical]] as the handler sees it: [type] is a [str]
    attribute, which the handler compares with string literals. *)
Module PersonCreate.
Record t := Build {
  type : string;
  active : option bool;
  details : Details }.
End PersonCreate.

(** [active: Optional[bool] = Field(True)]. *)
Definition validate_active (o : option (option bool)) : option bool :=
  match o with
  | None => Some true
  | Some v => v
  end.

Definition validate_PersonCreateNatural (r : RawPersonCreate.t)
  : option PersonCreate.t :=
  type <- StringLiteral "natural" (RawPersonCreate.type r) ;;
  details <- validate_NaturalPersonDetailsBase (RawPersonCreate.details r) ;;
  Some (PersonCreate.Build type (validate_active (RawPersonCreate.active r))
          (NaturalDetails details)).

Definition validate_PersonCreateJuridical (r : RawPersonCreate.t)
  : option PersonCreate.t :=
  type <- StringLiteral "juridical" (RawPersonCreate.type r) ;;
  details <- validate_JuridicalPersonDetailsBase (RawPersonCreate.details r) ;;
  Some (PersonCreate.Build type (validate_active (RawPersonCreate.active r))
          (JuridicalDetails details)).

(** The union: the first variant that validates. *)
Definition validate_PersonCreate (r : RawPersonCreate.t) : option PersonCreate.t :=
  match validate_PersonCreateNatural r with
  | Some p => Some p
  | None => validate_PersonCreateJuridical r
  end.

Module PersonFilter.
Record t := Build {
  type : option string;
  active : option bool;
  name : option string }.
End PersonFilter.

Module Pagination.
Record t := Build { skip : Z; limit : Z }.
End Pagination.

(** Query parameters [skip] and [limit] as integers, absent when [None]. *)
Module RawPagination.
Record t := Build { skip : option Z; limit : option Z }.
End RawPagination.

(** [skip: int = Field(0, ge=0)], [limit: int = Field(10, ge=1, le=100)]. *)
Definition validate_Pagination (r : RawPagination.t) : option Pagination.t :=
  let skip := match RawPagination.skip r with Some v => v | None => 0 end in
  let limit := match RawPagination.limit r with Some v => v | None => 10 end in
  if (0 <=? skip) && (1 <=? limit) && (limit <=? 100)
  then Some (Pagination.Build skip limit) else None.

(** Response schemas.  [NaturalPersonDetailsRead] and
    [JuridicalPersonDetailsRead] inherit the field constraints of their
    base schema, so building one validates the stored values again. *)
Module NaturalPersonDetailsRead.
Record t := Build {
  person_id : Z;
  curp : string;
  rfc : string;
  name : string;
  first_last_name : string;
  second_last_name : option string;
  date_of_birth : option date;
  created_at : Z;
  full_name : string }.
End NaturalPersonDetailsRead.

Module JuridicalPersonDetailsRead.
Record t := Build {
  person_id : Z;
  rfc : string;
  legal_name : string;
  incorporation_date : option date;
  created_at : Z }.
End JuridicalPersonDetailsRead.

Module PersonBase.
Record t := Build {
  id : Z;
  type : string;
  active : bool;
  created_at : Z;
  updated_at : Z;
  deleted_at : option Z }.
End PersonBase.

(** [PersonRead = Union[PersonReadNatural, PersonReadJuridical]]. *)
Inductive PersonRead :=
| PersonReadNatural (base : PersonBase.t) (details : NaturalPersonDetailsRead.t)
| PersonReadJuridical (base : PersonBase.t) (details : JuridicalPersonDetailsRead.t).

Definition base_of (r : PersonRead) : PersonBase.t :=
  match r with
  | PersonReadNatural b _ => b
  | PersonReadJuridical b _ => b
  end.

Module PersonList.
Record t := Build { total : Z; items : list PersonRead }.
End PersonList.

(** ** The store *)

(** Modelled from the spec: the tables of [app.models], which is not part
    of the sources at hand.  Section 3 of the specification lists the
    attributes; [active] is a boolean column and [deleted_at] the only
    nullable attribute of a person.  Timestamps are clock readings. *)
Module Person.
Record t := Build {
  id : Z;
  type : string;
  active : bool;
  created_at : Z;
  updated_at : Z;
  deleted_at : option Z }.
End Person.

Module NaturalPersonDetails.
Record t := Build {
  person_id : Z;
  curp : string;
  rfc : string;
  name : string;
  first_last_name : string;
  second_last_name : option string;
  date_of_birth : option date;
  created_at : Z;
  full_name : string }.
End NaturalPersonDetails.

Module JuridicalPersonDetails.
Record t := Build {
  person_id : Z;
  rfc : string;
  legal_name : string;
  incorporation_date : option date;
  created_at : Z }.
End JuridicalPersonDetails.

(** The database: three tables in insertion order and the sequence that
    hands out the surrogate keys of [person]. *)
Record DB := MkDB {
  person : list Person.t;
  natural_person_details : list NaturalPersonDetails.t;
  juridical_person_details : list JuridicalPersonDetails.t;
  person_id_seq : Z }.

Definition empty_db : DB := MkDB [] [] [] 1.

Definition upper_ascii (c : ascii) : ascii :=
  let n := nat_of_ascii c in
  if ((97 <=? n)%nat && (n <=? 122)%nat)%bool then ascii_of_nat (n - 32) else c.

Definition upper (s : string) : string :=
  string_of_list_ascii (map upper_ascii (list_ascii_of_string s)).

(** Modelled from the spec: the store-computed [full_name] of a natural
    person, a generated column of the database that is not part of the
    sources at hand.  The specification only says that it is derived by the
    persistence layer; the test fixture shows JOHN DOE SMITH for John, Doe,
    Smith: the name parts joined by blanks, in upper case. *)
Definition generated_full_name (name first_last_name : string)
  (second_last_name : option string) : string :=
  upper (name ++ " " ++ first_last_name ++
         match second_last_name with
         | Some s => " " ++ s
         | None => ""
         end).

(** What a route answers: a body with its status code, an [HTTPException]
    raised by the handler, a request the framework turned down during
    validation (422), or an exception nobody handles (500). *)
Inductive Response (A : Type) :=
| Success (status_code : Z) (body : A)
| HTTPException (status_code : Z) (detail : string)
| RequestValidationError
| InternalServerError.

Arguments Success {A} status_code body.
Arguments HTTPException {A} status_code detail.
Arguments RequestValidationError {A}.
Arguments InternalServerError {A}.

Definition status_code_of {A : Type} (r : Response A) : Z :=
  match r with
  | Success c _ => c
  | HTTPException c _ => c
  | RequestValidationError => 422
  | InternalServerError => 500
  end.

Definition client_error {A : Type} (r : Response A) : Prop :=
  400 <= status_code_of r < 500.

(** Modelled from the spec: what the store does on
    [db.add(Person(type=.., active=..)); db.commit(); db.refresh(..)].
    The key comes from the sequence, both timestamps are set by the store,
    [deleted_at] starts as NULL, any [type] text is taken (section 7 has
    the unrecognised type rejected only after the insert), and a NULL for
    the boolean column [active] is a constraint violation that aborts the
    commit.  What the store does with such a NULL is decided by the table
    declaration, which is not in the sources; the properties stated below
    do not rest on it. *)
Definition insert_person (type : string) (active : option bool) (now : Z)
  (db : DB) : option (Person.t * DB) :=
  match active with
  | None => None
  | Some a =>
      let p := Person.Build (person_id_seq db) type a now now None in
      Some (p, MkDB (person db ++ [p]) (natural_person_details db)
                 (juridical_person_details db) (person_id_seq db + 1))
  end.

Definition insert_natural (d : NaturalPersonDetails.t) (db : DB) : DB :=
  MkDB (person db) (natural_person_details db ++ [d])
    (juridical_person_details db) (person_id_seq db).

Definition insert_juridical (d : JuridicalPersonDetails.t) (db : DB) : DB :=
  MkDB (person db) (natural_person_details db)
    (juridical_person_details db ++ [d]) (person_id_seq db).

(** [db.query(NaturalPersonDetails).filter_by(person_id=..).first()]. *)
Definition first_natural (pid : Z) (db : DB) : option NaturalPersonDetails.t :=
  find (fun d => NaturalPersonDetails.person_id d =? pid) (natural_person_details db).

Definition first_juridical (pid : Z) (db : DB) : option JuridicalPersonDetails.t :=
  find (fun d => JuridicalPersonDetails.person_id d =? pid) (juridical_person_details db).

(** ** Response assembly *)

Definition read_natural (d : NaturalPersonDetails.t)
  : option NaturalPersonDetailsRead.t :=
  curp <- StringConstraints 18 (Some 18%nat) (NaturalPersonDetails.curp d) ;;
  rfc <- StringConstraints 12 (Some 13%nat) (NaturalPersonDetails.rfc d) ;;
  name <- StringConstraints 0 (Some 100%nat) (NaturalPersonDetails.name d) ;;
  first_last_name <-
    StringConstraints 0 (Some 100%nat) (NaturalPersonDetails.first_last_name d) ;;
  second_last_name <-
    optional (StringConstraints 0 (Some 100%nat)) (NaturalPersonDetails.second_last_name d) ;;
  Some (NaturalPersonDetailsRead.Build (NaturalPersonDetails.person_id d)
          curp rfc name first_last_name second_last_name
          (NaturalPersonDetails.date_of_birth d)
          (NaturalPersonDetails.created_at d)
          (NaturalPersonDetails.full_name d)).

Definition read_juridical (d : JuridicalPersonDetails.t)
  : option JuridicalPersonDetailsRead.t :=
  rfc <- StringConstraints 12 (Some 13%nat) (JuridicalPersonDetails.rfc d) ;;
  legal_name <- StringConstraints 0 (Some 200%nat) (JuridicalPersonDetails.legal_name d) ;;
  Some (JuridicalPersonDetailsRead.Build (JuridicalPersonDetails.person_id d)
          rfc legal_name
          (JuridicalPersonDetails.incorporation_date d)
          (JuridicalPersonDetails.created_at d)).

Definition read_base (p : Person.t) : PersonBase.t :=
  PersonBase.Build (Person.id p) (Person.type p) (Person.active p)
    (Person.created_at p) (Person.updated_at p) (Person.deleted_at p).

(** The block that each handler repeats: branch on a type text, fetch the
    detail row of that kind and build the response object.  [None] stands
    for the exception raised when the row is missing (attribute access on
    [None]) or when the response schema turns a stored value down. *)
Definition assemble (type : string) (p : Person.t) (db : DB) : option PersonRead :=
  if String.eqb type "natural" then
    d <- first_natural (Person.id p) db ;;
    r <- read_natural d ;;
    Some (PersonReadNatural (read_base p) r)
  else
    d <- first_juridical (Person.id p) db ;;
    r <- read_juridical d ;;
    Some (PersonReadJuridical (read_base p) r).

(** ** Route handlers ([app/routers/person.py]) *)

Definition natural_row (pid : Z) (d : NaturalPersonDetailsBase.t) (now : Z)
  : NaturalPersonDetails.t :=
  NaturalPersonDetails.Build pid
    (NaturalPersonDetailsBase.curp d)
    (NaturalPersonDetailsBase.rfc d)
    (NaturalPersonDetailsBase.name d)
    (NaturalPersonDetailsBase.first_last_name d)
    (NaturalPersonDetailsBase.second_last_name d)
    (NaturalPersonDetailsBase.date_of_birth d)
    now
    (generated_full_name (NaturalPersonDetailsBase.name d)
       (NaturalPersonDetailsBase.first_last_name d)
       (NaturalPersonDetailsBase.second_last_name d)).

Definition juridical_row (pid : Z) (d : JuridicalPersonDetailsBase.t) (now : Z)
  : JuridicalPersonDetails.t :=
  JuridicalPersonDetails.Build pid
    (JuridicalPersonDetailsBase.rfc d)
    (JuridicalPersonDetailsBase.legal_name d)
    (JuridicalPersonDetailsBase.incorporation_date d)
    now.

(** After the second commit: re-read the person and answer 201. *)
Definition created (type : string) (db_person : Person.t) (db : DB)
  : Response PersonRead * DB :=
  match assemble type db_person db with
  | Some response => (Success 201 response, db)
  | None => (InternalServerError, db)
  end.

(** [create_person].  The base row is committed before the type is looked
    at; each exit after that commit returns the store with the base row in
    it.  Reading [person.details.curp] on a juridical detail object (or
    [legal_name] on a natural one) raises an attribute error. *)
Definition create_person (person : PersonCreate.t) (now : Z) (db : DB)
  : Response PersonRead * DB :=
  match insert_person (PersonCreate.type person) (PersonCreate.active person) now db with
  | None => (InternalServerError, db)
  | Some (db_person, db1) =>
      if String.eqb (PersonCreate.type person) "natural" then
        match PersonCreate.details person with
        | NaturalDetails d =>
            created (PersonCreate.type person) db_person
              (insert_natural (natural_row (Person.id db_person) d now) db1)
        | JuridicalDetails _ => (InternalServerError, db1)
        end
      else if String.eqb (PersonCreate.type person) "juridical" then
        match PersonCreate.details person with
        | JuridicalDetails d =>
            created (PersonCreate.type person) db_person
              (insert_juridical (juridical_row (Person.id db_person) d now) db1)
        | NaturalDetails _ => (InternalServerError, db1)
        end
      else (HTTPException 400 "Invalid person type", db1)
  end.

Definition is_null {A : Type} (o : option A) : bool :=
  match o with
  | None => true
  | Some _ => false
  end.

(** The rows that the name filter adds to the query for one person:
    [person LEFT OUTER JOIN natural_person_details ON person.id =
    natural_person_details.person_id], and, because the predicate names a
    table that is not joined, the whole of [juridical_person_details] as a
    further FROM element.  A person without natural details is joined with
    NULLs, on which ILIKE is NULL; the disjunction then rests on the
    juridical row alone. *)
Definition name_rows (pattern : string) (db : DB) (p : Person.t) : list Person.t :=
  let joined :=
    match filter (fun d => NaturalPersonDetails.person_id d =? Person.id p)
            (natural_person_details db) with
    | [] => [None]
    | l => map Some l
    end in
  flat_map (fun n =>
    flat_map (fun j =>
      if (match n with
          | Some d => Str.ilike (NaturalPersonDetails.name d) pattern
          | None => false
          end
          || Str.ilike (JuridicalPersonDetails.legal_name j) pattern)%bool
      then [p] else [])
      (juridical_person_details db))
    joined.

(** The filtered query of [list_persons], as the list of its rows in table
    order, each row shown by the person it selects. *)
Definition list_query (f : PersonFilter.t) (db : DB) : list Person.t :=
  let q0 := filter (fun p => is_null (Person.deleted_at p)) (person db) in
  let q1 :=
    match PersonFilter.type f with
    | Some t =>
        if Str.truthy t then filter (fun p => String.eqb (Person.type p) t) q0 else q0
    | None => q0
    end in
  let q2 :=
    match PersonFilter.active f with
    | Some a => filter (fun p => Bool.eqb (Person.active p) a) q1
    | None => q1
    end in
  match PersonFilter.name f with
  | Some n =>
      if Str.truthy n then flat_map (name_rows ("%" ++ n ++ "%") db) q2 else q2
  | None => q2
  end.

(** [order_by(Person.id)]: a stable insertion sort on the key. *)
Fixpoint insert_by_id (p : Person.t) (l : list Person.t) : list Person.t :=
  match l with
  | [] => [p]
  | q :: l' =>
      if Person.id p <? Person.id q then p :: l else q :: insert_by_id p l'
  end.

Fixpoint order_by_id (l : list Person.t) : list Person.t :=
  match l with
  | [] => []
  | p :: l' => insert_by_id p (order_by_id l')
  end.

(** [.all()] of a query for one entity keeps the first occurrence of each
    object of the session, that is, of each primary key. *)
Fixpoint unique_from (seen : list Z) (l : list Person.t) : list Person.t :=
  match l with
  | [] => []
  | p :: l' =>
      if existsb (Z.eqb (Person.id p)) seen then unique_from seen l'
      else p :: unique_from (Person.id p :: seen) l'
  end.

Definition unique (l : list Person.t) : list Person.t := unique_from [] l.

(** The page of a query whose OFFSET and LIMIT the database accepts (see
    [offset_limit_ok] below): order, offset, limit, then [unique]. *)
Definition page (pagination : Pagination.t) (rows : list Person.t) : list Person.t :=
  unique (firstn (Z.to_nat (Pagination.limit pagination))
            (skipn (Z.to_nat (Pagination.skip pagination)) (order_by_id rows))).

Fixpoint traverse {A B : Type} (f : A -> option B) (l : list A) : option (list B) :=
  match l with
  | [] => Some []
  | a :: l' =>
      b <- f a ;;
      bs <- traverse f l' ;;
      Some (b :: bs)
  end.

(** PostgreSQL takes OFFSET and LIMIT as bigint values that are not
    negative; with any other value the paged query raises an error, which
    nobody handles.  The schema keeps [skip] from below only, so that a
    validated [skip] above [bigint_max] reaches the query. *)
Definition bigint_max : Z := 9223372036854775807.

Definition offset_limit_ok (pagination : Pagination.t) : bool :=
  (0 <=? Pagination.skip pagination)
  && (Pagination.skip pagination <=? bigint_max)
  && (0 <=? Pagination.limit pagination)
  && (Pagination.limit pagination <=? bigint_max).

(** [list_persons]. *)
Definition list_persons (f : PersonFilter.t) (pagination : Pagination.t) (db : DB)
  : Response PersonList.t :=
  let query := list_query f db in
  let total := Z.of_nat (List.length query) in
  if offset_limit_ok pagination then
    let persons := page pagination query in
    match traverse (fun p => assemble (Person.type p) p db) persons with
    | Some result => Success 200 (PersonList.Build total result)
    | None => InternalServerError
    end
  else InternalServerError.

(** Modelled from the spec: the UPDATE that the commit in [delete_person]
    issues for the changed object.  [deleted_at] is written and, as section
    3 has it, [updated_at] is touched by the mutation. *)
Definition mark_deleted (now : Z) (p : Person.t) : Person.t :=
  Person.Build (Person.id p) (Person.type p) (Person.active p)
    (Person.created_at p) now (Some now).

Definition update_deleted (pid : Z) (now : Z) (db : DB) : DB :=
  MkDB (map (fun p => if Person.id p =? pid then mark_deleted now p else p) (person db))
    (natural_person_details db) (juridical_person_details db) (person_id_seq db).

(** [delete_person]. *)
Definition delete_person (person_id : Z) (now : Z) (db : DB)
  : Response PersonRead * DB :=
  match find (fun p => (Person.id p =? person_id) && is_null (Person.deleted_at p))
          (person db) with
  | None => (HTTPException 404 "Person not found", db)
  | Some person =>
      let db' := update_deleted (Person.id person) now db in
      let person' := mark_deleted now person in
      match assemble (Person.type person') person' db' with
      | Some response => (Success 200 response, db')
      | None => (InternalServerError, db')
      end
  end.

(** ** The application: validation in front of the handlers *)

Inductive Request :=
| POST_persons (body : RawPersonCreate.t)
| GET_persons (filter : PersonFilter.t) (pagination : RawPagination.t)
| DELETE_persons (person_id : Z).

Inductive Body :=
| PersonBody (p : PersonRead)
| ListBody (l : PersonList.t).

Definition map_response {A B : Type} (f : A -> B) (r : Response A) : Response B :=
  match r with
  | Success c b => Success c (f b)
  | HTTPException c d => HTTPException c d
  | RequestValidationError => RequestValidationError
  | InternalServerError => InternalServerError
  end.

Definition app (req : Request) (now : Z) (db : DB) : Response Body * DB :=
  match req with
  | POST_persons body =>
      match validate_PersonCreate body with
      | None => (RequestValidationError, db)
      | Some person =>
          let (r, db') := create_person person now db in
          (map_response PersonBody r, db')
      end
  | GET_persons f raw =>
      match validate_Pagination raw with
      | None => (RequestValidationError, db)
      | Some pagination => (map_response ListBody (list_persons f pagination db), db)
      end
  | DELETE_persons person_id =>
      let (r, db') := delete_person person_id now db in
      (map_response PersonBody r, db')
  end.

(** A run of the application from a store, one clock reading per request. *)
Fixpoint run (reqs : list (Request * Z)) (db : DB) : DB :=
  match reqs with
  | [] => db
  | (req, now) :: reqs' => run reqs' (snd (app req now db))
  end.

Inductive reachable : DB -> Prop :=
| reachable_empty : reachable empty_db
| reachable_step db req now : reachable db -> reachable (snd (app req now db)).

(** ** The fixtures of [app/tests/test_person.py] *)

Definition natural_details (name : string) : RawDetails.t :=
  RawDetails.Build (Some "CURP12345678901234") (Some "RFC123456789")
    (Some name) (Some "Doe") (Some "Smith") (Some (Date 1990 1 1))
    None None (Some "JOHN DOE SMITH").

Definition natural_person_data (name : string) : RawPersonCreate.t :=
  RawPersonCreate.Build "natural" (Some (Some true)) (natural_details name).

Definition juridical_details (legal_name : string) : RawDetails.t :=
  RawDetails.Build None (Some "RFC987654321") None None None None
    (Some legal_name) (Some (Date 2000 5 15)) None.

Definition juridical_person_data (legal_name : string) : RawPersonCreate.t :=
  RawPersonCreate.Build "juridical" (Some (Some true)) (juridical_details legal_name).

Definition no_filter : PersonFilter.t := PersonFilter.Build None None None.

Definition name_filter (n : string) : PersonFilter.t :=
  PersonFilter.Build None None (Some n).

Definition default_page : Pagination.t := Pagination.Build 0 10.

(** The same request with another caller-supplied [full_name]. *)
Definition with_full_name (fn : option string) (r : RawPersonCreate.t)
  : RawPersonCreate.t :=
  let d := RawPersonCreate.details r in
  RawPersonCreate.Build (RawPersonCreate.type r) (RawPersonCreate.active r)
    (RawDetails.Build (RawDetails.curp d) (RawDetails.rfc d) (RawDetails.name d)
       (RawDetails.first_last_name d) (RawDetails.second_last_name d)
       (RawDetails.date_of_birth d) (RawDetails.legal_name d)
       (RawDetails.incorporation_date d) fn).

(** The store of [test_get_persons_filter_name]: the natural person Alice,
    sent with the full_name "Alice Wonderland", then Wonderland LLC. *)
Definition wonderland_db : DB :=
  run [(POST_persons
          (with_full_name (Some "Alice Wonderland") (natural_person_data "Alice")), 100);
       (POST_persons (juridical_person_data "Wonderland LLC"), 101)] empty_db.

(** ** Invariant, predicates and stores used in the statements *)

(** The detail row that the response of a person of this [type] is built
    from is there and is accepted by the response schema. *)
Definition details_ok (db : DB) (pid : Z) (type : string) : Prop :=
  if String.eqb type "natural"
  then exists d r, first_natural pid db = Some d /\ read_natural d = Some r
  else exists d r, first_juridical pid db = Some d /\ read_juridical d = Some r.

Record db_ok (db : DB) : Prop := {
  ok_person_ids : Forall (fun p => Person.id p < person_id_seq db) (person db);
  ok_nodup : NoDup (map Person.id (person db));
  ok_natural_ids :
    Forall (fun d => NaturalPersonDetails.person_id d < person_id_seq db)
      (natural_person_details db);
  ok_juridical_ids :
    Forall (fun d => JuridicalPersonDetails.person_id d < person_id_seq db)
      (juridical_person_details db);
  ok_details :
    Forall (fun p => details_ok db (Person.id p) (Person.type p)) (person db) }.

Definition new_person (type : string) (a : bool) (now : Z) (db : DB) : Person.t :=
  Person.Build (person_id_seq db) type a now now None.

Definition john_base : NaturalPersonDetailsBase.t :=
  NaturalPersonDetailsBase.Build "CURP12345678901234" "RFC123456789" "John" "Doe"
    (Some "Smith") (Some (Date 1990 1 1)).


(** What one request may do to a stored person: nothing, or, when the
    request deletes this person's id and the person is not deleted yet,
    stamp it as deleted. *)
Inductive transition (req : Request) (now : Z) : Person.t -> Person.t -> Prop :=
| transition_none p : transition req now p p
| transition_delete p :
    req = DELETE_persons (Person.id p) ->
    Person.deleted_at p = None ->
    transition req now p (mark_deleted now p).

Definition deleted_db : DB := run [(DELETE_persons 1, 200)] wonderland_db.




(** A present field whose trimmed value is shorter than [lo] or longer
    than [hi]. *)
Definition out_of_range (lo hi : nat) (o : option string) : bool :=
  match o with
  | Some s =>
      let n := String.length (Str.strip s) in
      negb ((lo <=? n)%nat && (n <=? hi)%nat)
  | None => false
  end.

Definition violates_natural (d : RawDetails.t) : bool :=
  out_of_range 18 18 (RawDetails.curp d)
  || out_of_range 12 13 (RawDetails.rfc d)
  || out_of_range 0 100 (RawDetails.name d)
  || out_of_range 0 100 (RawDetails.first_last_name d)
  || out_of_range 0 100 (RawDetails.second_last_name d).

Definition violates_juridical (d : RawDetails.t) : bool :=
  out_of_range 12 13 (RawDetails.rfc d)
  || out_of_range 0 200 (RawDetails.legal_name d).

(** The detail fields of the variant that the request's type names break
    a length constraint. *)
Definition violates_create (r : RawPersonCreate.t) : bool :=
  (String.eqb (Str.strip (RawPersonCreate.type r)) "natural"
   && violates_natural (RawPersonCreate.details r))
  || (String.eqb (Str.strip (RawPersonCreate.type r)) "juridical"
      && violates_juridical (RawPersonCreate.details r)).

Definition violates_pagination (r : RawPagination.t) : bool :=
  match RawPagination.skip r with Some s => s <? 0 | None => false end
  || match RawPagination.limit r with
     | Some l => (l <? 1) || (100 <? l)
     | None => false
     end.

Definition curp_data (curp : string) : RawPersonCreate.t :=
  RawPersonCreate.Build "natural" (Some (Some true))
    (RawDetails.Build (Some curp) (Some "RFC123456789") (Some "John") (Some "Doe")
       (Some "Smith") (Some (Date 1990 1 1)) None None None).

(** A filter text without LIKE metacharacters. *)
Definition plain_char (c : ascii) : bool :=
  negb (Ascii.eqb c "%") && negb (Ascii.eqb c "_") && negb (Ascii.eqb c "\").

Definition plain_text (s : string) : bool :=
  forallb plain_char (list_ascii_of_string s).

(** The specification's wording: the person's natural-person name or
    juridical-person legal_name contains the filter text, ignoring case. *)
Definition name_matches (db : DB) (n : string) (p : Person.t) : bool :=
  existsb (fun d => (NaturalPersonDetails.person_id d =? Person.id p)
                    && Str.contains_ci (NaturalPersonDetails.name d) n)
    (natural_person_details db)
  || existsb (fun d => (JuridicalPersonDetails.person_id d =? Person.id p)
                       && Str.contains_ci (JuridicalPersonDetails.legal_name d) n)
       (juridical_person_details db).

(** The specification's wording: the persons that match the filters of a
    listing request: not deleted, of the given type, with the given
    [active], and matching the given name. *)
Definition matching_persons (f : PersonFilter.t) (db : DB) : list Person.t :=
  filter (fun p =>
            is_null (Person.deleted_at p)
            && match PersonFilter.type f with
               | Some t => String.eqb (Person.type p) t
               | None => true
               end
            && match PersonFilter.active f with
               | Some a => Bool.eqb (Person.active p) a
               | None => true
               end
            && match PersonFilter.name f with
               | Some n => name_matches db n p
               | None => true
               end)
    (person db).


Definition item_ids (l : PersonList.t) : list Z :=
  map (fun it => PersonBase.id (base_of it)) (PersonList.items l).

(** A store with one natural person only. *)
Definition alice_db : DB :=
  run [(POST_persons (natural_person_data "Alice"), 100)] empty_db.

(** A store with one natural person and two juridical persons. *)
Definition three_db : DB :=
  run [(POST_persons (natural_person_data "Alice"), 100);
       (POST_persons (juridical_person_data "Acme Corporation"), 101);
       (POST_persons (juridical_person_data "Globex"), 102)] empty_db.

(** The filters that are in effect: a filter text that is empty is
    treated by [list_persons] as no filter. *)
Definition text_in_effect (o : option string) : option string :=
  match o with
  | Some s => if Str.truthy s then Some s else None
  | None => None
  end.

Definition in_effect (f : PersonFilter.t) : PersonFilter.t :=
  PersonFilter.Build (text_in_effect (PersonFilter.type f)) (PersonFilter.active f)
    (text_in_effect (PersonFilter.name f)).

Definition by_id (p q : Person.t) : Prop := Person.id p <= Person.id q.


(** ** User schemas ([app/schemas.py]) *)

Module RawUserCreate.
Record t := Build {
  username : option string;
  email : option string;
  name : option string;
  is_active : option (option bool) }.
End RawUserCreate.

Module UserCreate.
Record t := Build {
  username : string;
  email : string;
  name : option string;
  is_active : bool }.
End UserCreate.

Module RawUserUpdate.
Record t := Build {
  username : option string;
  email : option string;
  name : option string }.
End RawUserUpdate.

Module UserUpdate.
Record t := Build {
  username : option string;
  email : option string;
  name : option string }.
End UserUpdate.

Section UserSchemas.

(** [EmailStr]: the check of the e-mail address is the work of a library
    outside the sources; it yields the accepted address or fails. *)
Variable EmailStr : string -> option string.

(** [is_active: bool = Field(default=True)]: absent is [True], null is
    turned down. *)
Definition validate_is_active (o : option (option bool)) : option bool :=
  match o with
  | None => Some true
  | Some v => v
  end.

Definition validate_UserCreate (r : RawUserCreate.t) : option UserCreate.t :=
  username <-
    obind (required (RawUserCreate.username r)) (StringConstraints 1 (Some 50%nat)) ;;
  email <- obind (required (RawUserCreate.email r)) EmailStr ;;
  name <- optional (StringConstraints 0 (Some 100%nat)) (RawUserCreate.name r) ;;
  is_active <- validate_is_active (RawUserCreate.is_active r) ;;
  Some (UserCreate.Build username email name is_active).

Definition validate_UserUpdate (r : RawUserUpdate.t) : option UserUpdate.t :=
  username <- optional (StringConstraints 1 (Some 50%nat)) (RawUserUpdate.username r) ;;
  email <- optional EmailStr (RawUserUpdate.email r) ;;
  name <- optional (StringConstraints 0 (Some 100%nat)) (RawUserUpdate.name r) ;;
  Some (UserUpdate.Build username email name).

End UserSchemas.

(** ** Predicates on validated values *)

(** A text without white space at either end. *)
Definition trimmed (s : string) : Prop := Str.strip s = s.

Definition within (lo hi : nat) (s : string) : Prop :=
  (lo <= String.length s <= hi)%nat.

(** [v] is the trimmed text of a field that was sent. *)
Definition trimmed_from (o : option string) (v : string) : Prop :=
  exists s, o = Some s /\ v = Str.strip s.

(** A validated payload written back as a request body. *)
Definition raw_of_natural (d : NaturalPersonDetailsBase.t) : RawDetails.t :=
  RawDetails.Build
    (Some (NaturalPersonDetailsBase.curp d))
    (Some (NaturalPersonDetailsBase.rfc d))
    (Some (NaturalPersonDetailsBase.name d))
    (Some (NaturalPersonDetailsBase.first_last_name d))
    (NaturalPersonDetailsBase.second_last_name d)
    (NaturalPersonDetailsBase.date_of_birth d)
    None None None.

Definition raw_of_juridical (d : JuridicalPersonDetailsBase.t) : RawDetails.t :=
  RawDetails.Build None
    (Some (JuridicalPersonDetailsBase.rfc d))
    None None None None
    (Some (JuridicalPersonDetailsBase.legal_name d))
    (JuridicalPersonDetailsBase.incorporation_date d)
    None.

Definition raw_of (p : PersonCreate.t) : RawPersonCreate.t :=
  RawPersonCreate.Build (PersonCreate.type p) (Some (PersonCreate.active p))
    match PersonCreate.details p with
    | NaturalDetails d => raw_of_natural d
    | JuridicalDetails d => raw_of_juridical d
    end.

(** ** Orders and counts used in the statements on the store *)

Definition lt_id (p q : Person.t) : Prop := Person.id p < Person.id q.






(** The body of a listing that was answered (an empty one otherwise). *)
Definition answer_of (r : Response PersonList.t) : PersonList.t :=
  match r with
  | Success _ l => l
  | _ => PersonList.Build 0 []
  end.

(** Whether the type filter in effect and the active filter of [f] select
    a person of this type and this [active]. *)
Definition selects (f : PersonFilter.t) (type : string) (active : bool) : bool :=
  match text_in_effect (PersonFilter.type f) with
  | Some t => String.eqb type t
  | None => true
  end
  && match PersonFilter.active f with
     | Some a => Bool.eqb active a
     | None => true
     end.

(** The person of a response to a create or a delete (a blank one when
    the request was not answered with a person). *)
Definition person_of (r : Response Body) : PersonRead :=
  match r with
  | Success _ (PersonBody b) => b
  | _ => PersonReadNatural (PersonBase.Build 0 "" true 0 0 None)
           (NaturalPersonDetailsRead.Build 0 "" "" "" "" None None 0 "")
  end.

(** * Properties *)

Example strip_ex : Str.strip "  John Doe	 " = "John Doe".
Proof. reflexivity. Qed.

Example ilike_ex1 : Str.ilike "Wonderland LLC" "%wonderLAND%" = true.
Proof. reflexivity. Qed.

Example ilike_ex2 : Str.ilike "Alice" "%Wonderland%" = false.
Proof. reflexivity. Qed.

Example ilike_ex3 : Str.ilike "Bob" "%b_b%" = true.
Proof. reflexivity. Qed.

(** ** Strings and validators *)

Lemma lstrip_fixed (c : ascii) (l : list ascii) :
  Str.is_space c = false -> Str.lstrip (c :: l) = c :: l.
Proof. intros H. simpl. now rewrite H. Qed.

Lemma rstrip_idem (l : list ascii) : Str.rstrip (Str.rstrip l) = Str.rstrip l.
Proof.
  induction l as [|c l IH]; simpl; [reflexivity|].
  destruct (Str.rstrip l) as [|d r] eqn:E.
  - destruct (Str.is_space c) eqn:Hc; simpl; [reflexivity|now rewrite Hc].
  - change (Str.rstrip (c :: d :: r)) with
      (match Str.rstrip (d :: r) with
       | [] => if Str.is_space c then [] else [c]
       | x :: r' => c :: x :: r'
       end).
    now rewrite IH.
Qed.

Lemma rstrip_head (c : ascii) (l : list ascii) :
  Str.is_space c = false -> exists r, Str.rstrip (c :: l) = c :: r.
Proof.
  intros H. simpl. destruct (Str.rstrip l); rewrite ?H; eauto.
Qed.

Lemma lstrip_head (l : list ascii) :
  Str.lstrip l = [] \/ exists c r, Str.lstrip l = c :: r /\ Str.is_space c = false.
Proof.
  induction l as [|c l IH]; simpl; [now left|].
  destruct (Str.is_space c) eqn:E; [exact IH|right; eauto].
Qed.

Lemma strip_list_idem (l : list ascii) :
  Str.rstrip (Str.lstrip (Str.rstrip (Str.lstrip l))) = Str.rstrip (Str.lstrip l).
Proof.
  destruct (lstrip_head l) as [E|(c & r & E & Hc)]; rewrite E.
  - reflexivity.
  - destruct (rstrip_head c r Hc) as (r' & E').
    rewrite E', (lstrip_fixed c r' Hc), <- E'. apply rstrip_idem.
Qed.

Lemma strip_idem (s : string) : Str.strip (Str.strip s) = Str.strip s.
Proof.
  unfold Str.strip. rewrite list_ascii_of_string_of_list_ascii.
  now rewrite strip_list_idem.
Qed.

Lemma StringConstraints_strip (lo : nat) (hi : option nat) (s v : string) :
  StringConstraints lo hi s = Some v -> v = Str.strip s.
Proof.
  unfold StringConstraints. destruct (_ && _)%bool; congruence.
Qed.

(** A value that passed a constrained string type passes it again,
    unchanged: stored values are accepted by the response schemas. *)
Lemma StringConstraints_idem (lo : nat) (hi : option nat) (s v : string) :
  StringConstraints lo hi s = Some v -> StringConstraints lo hi v = Some v.
Proof.
  intros H. pose proof (StringConstraints_strip _ _ _ _ H) as ->.
  unfold StringConstraints in *. rewrite strip_idem.
  destruct (_ && _)%bool; congruence.
Qed.

Lemma StringLiteral_eq (lit s v : string) :
  StringLiteral lit s = Some v -> v = lit.
Proof.
  unfold StringLiteral. destruct (String.eqb _ _) eqn:E; [|discriminate].
  apply String.eqb_eq in E. congruence.
Qed.

Lemma obind_Some {A B : Type} (o : option A) (f : A -> option B) (b : B) :
  obind o f = Some b -> exists a, o = Some a /\ f a = Some b.
Proof. destruct o; simpl; [eauto|discriminate]. Qed.

Ltac inv_bind H :=
  repeat match type of H with
         | obind _ _ = Some _ =>
             let a := fresh "v" in
             let E := fresh "E" in
             apply obind_Some in H; destruct H as (a & E & H)
         end.

Lemma optional_idem (f : string -> option string) (o : option string) (v : option string) :
  (forall s w, f s = Some w -> f w = Some w) ->
  optional f o = Some v -> optional f v = Some v.
Proof.
  intros Hf. destruct o as [s|]; simpl.
  - intros H. inv_bind H. injection H as <-. simpl. now rewrite (Hf _ _ E).
  - intros [= <-]. reflexivity.
Qed.

(** The natural detail row written for validated details is read back by
    the response schema with the same values. *)
Lemma read_natural_row (r : RawDetails.t) (d : NaturalPersonDetailsBase.t) (pid now : Z) :
  validate_NaturalPersonDetailsBase r = Some d ->
  read_natural (natural_row pid d now) =
  Some (NaturalPersonDetailsRead.Build pid
          (NaturalPersonDetailsBase.curp d) (NaturalPersonDetailsBase.rfc d)
          (NaturalPersonDetailsBase.name d)
          (NaturalPersonDetailsBase.first_last_name d)
          (NaturalPersonDetailsBase.second_last_name d)
          (NaturalPersonDetailsBase.date_of_birth d) now
          (generated_full_name (NaturalPersonDetailsBase.name d)
             (NaturalPersonDetailsBase.first_last_name d)
             (NaturalPersonDetailsBase.second_last_name d))).
Proof.
  unfold validate_NaturalPersonDetailsBase, required. intros H.
  inv_bind H. injection H as <-.
  repeat match goal with
         | E : obind _ _ = Some _ |- _ => inv_bind E
         end.
  unfold read_natural, natural_row. simpl.
  repeat match goal with
         | E : StringConstraints _ _ _ = Some _ |- _ =>
             rewrite (StringConstraints_idem _ _ _ _ E); clear E; simpl
         end.
  match goal with
  | E : optional _ _ = Some _ |- _ =>
      rewrite (optional_idem _ _ _
                 (fun s w => StringConstraints_idem 0 (Some 100%nat) s w) E)
  end.
  reflexivity.
Qed.

Lemma read_juridical_row (r : RawDetails.t) (d : JuridicalPersonDetailsBase.t) (pid now : Z) :
  validate_JuridicalPersonDetailsBase r = Some d ->
  read_juridical (juridical_row pid d now) =
  Some (JuridicalPersonDetailsRead.Build pid
          (JuridicalPersonDetailsBase.rfc d)
          (JuridicalPersonDetailsBase.legal_name d)
          (JuridicalPersonDetailsBase.incorporation_date d) now).
Proof.
  unfold validate_JuridicalPersonDetailsBase, required. intros H.
  inv_bind H. injection H as <-.
  repeat match goal with
         | E : obind _ _ = Some _ |- _ => inv_bind E
         end.
  unfold read_juridical, juridical_row. simpl.
  repeat match goal with
         | E : StringConstraints _ _ _ = Some _ |- _ =>
             rewrite (StringConstraints_idem _ _ _ _ E); clear E; simpl
         end.
  reflexivity.
Qed.

(** ** List lemmas *)

Lemma find_app_some {A : Type} (f : A -> bool) (l l' : list A) (a : A) :
  find f l = Some a -> find f (l ++ l') = Some a.
Proof.
  induction l as [|x l IH]; simpl; [discriminate|].
  destruct (f x); auto.
Qed.

Lemma find_app_none {A : Type} (f : A -> bool) (l l' : list A) :
  find f l = None -> find f (l ++ l') = find f l'.
Proof.
  induction l as [|x l IH]; simpl; [reflexivity|].
  destruct (f x); [discriminate|auto].
Qed.

Lemma find_none_Forall {A : Type} (f : A -> bool) (l : list A) :
  Forall (fun a => f a = false) l -> find f l = None.
Proof.
  induction 1 as [|x l Hx _ IH]; simpl; [reflexivity|now rewrite Hx].
Qed.

Lemma NoDup_snoc {A : Type} (l : list A) (x : A) :
  NoDup l -> ~ In x l -> NoDup (l ++ [x]).
Proof.
  induction 1 as [|y l Hy Hl IH]; simpl; intros Hx.
  - constructor; [intros []|constructor].
  - constructor.
    + rewrite in_app_iff. simpl. intros [H|[H|[]]]; [auto|subst; auto].
    + apply IH. auto.
Qed.

Lemma traverse_Forall2 {A B : Type} (f : A -> option B) (l : list A) (bs : list B) :
  traverse f l = Some bs -> Forall2 (fun a b => f a = Some b) l bs.
Proof.
  revert bs. induction l as [|a l IH]; simpl; intros bs H.
  - injection H as <-. constructor.
  - inv_bind H. injection H as <-. constructor; auto.
Qed.


(** ** The invariant of the store *)


Lemma assemble_base (type : string) (p : Person.t) (db : DB) (r : PersonRead) :
  assemble type p db = Some r -> base_of r = read_base p.
Proof.
  unfold assemble. destruct (String.eqb type "natural");
    intros H; inv_bind H; injection H as <-; reflexivity.
Qed.

Lemma empty_db_ok : db_ok empty_db.
Proof. split; simpl; constructor. Qed.

(** ** What [create_person] does on validated payloads *)

Lemma validate_PersonCreate_cases (r : RawPersonCreate.t) (p : PersonCreate.t) :
  validate_PersonCreate r = Some p ->
  (exists d, validate_NaturalPersonDetailsBase (RawPersonCreate.details r) = Some d /\
             p = PersonCreate.Build "natural"
                   (validate_active (RawPersonCreate.active r)) (NaturalDetails d)) \/
  (exists d, validate_JuridicalPersonDetailsBase (RawPersonCreate.details r) = Some d /\
             p = PersonCreate.Build "juridical"
                   (validate_active (RawPersonCreate.active r)) (JuridicalDetails d)).
Proof.
  unfold validate_PersonCreate.
  destruct (validate_PersonCreateNatural r) as [q|] eqn:En.
  - intros [= <-]. left. unfold validate_PersonCreateNatural in En.
    inv_bind En. injection En as <-.
    rewrite (StringLiteral_eq _ _ _ E). eauto.
  - intros H. right. unfold validate_PersonCreateJuridical in H.
    inv_bind H. injection H as <-.
    rewrite (StringLiteral_eq _ _ _ E). eauto.
Qed.

Lemma first_natural_new (db : DB) (d : NaturalPersonDetails.t) :
  Forall (fun d => NaturalPersonDetails.person_id d < person_id_seq db)
    (natural_person_details db) ->
  NaturalPersonDetails.person_id d = person_id_seq db ->
  find (fun x => NaturalPersonDetails.person_id x =? person_id_seq db)
    (natural_person_details db ++ [d]) = Some d.
Proof.
  intros Hids Hd. rewrite find_app_none.
  - simpl. rewrite Hd, Z.eqb_refl. reflexivity.
  - apply find_none_Forall. eapply Forall_impl; [|exact Hids].
    simpl. intros x Hx. apply Z.eqb_neq. lia.
Qed.

Lemma first_juridical_new (db : DB) (d : JuridicalPersonDetails.t) :
  Forall (fun d => JuridicalPersonDetails.person_id d < person_id_seq db)
    (juridical_person_details db) ->
  JuridicalPersonDetails.person_id d = person_id_seq db ->
  find (fun x => JuridicalPersonDetails.person_id x =? person_id_seq db)
    (juridical_person_details db ++ [d]) = Some d.
Proof.
  intros Hids Hd. rewrite find_app_none.
  - simpl. rewrite Hd, Z.eqb_refl. reflexivity.
  - apply find_none_Forall. eapply Forall_impl; [|exact Hids].
    simpl. intros x Hx. apply Z.eqb_neq. lia.
Qed.

Lemma create_person_natural (db : DB) (now : Z) (r : RawDetails.t)
  (d : NaturalPersonDetailsBase.t) (a : bool) :
  db_ok db ->
  validate_NaturalPersonDetailsBase r = Some d ->
  exists details,
    read_natural (natural_row (person_id_seq db) d now) = Some details /\
    create_person (PersonCreate.Build "natural" (Some a) (NaturalDetails d)) now db =
    (Success 201 (PersonReadNatural (read_base (new_person "natural" a now db)) details),
     MkDB (person db ++ [new_person "natural" a now db])
       (natural_person_details db ++ [natural_row (person_id_seq db) d now])
       (juridical_person_details db) (person_id_seq db + 1)).
Proof.
  intros Hok Hv. eexists. split; [apply (read_natural_row _ _ _ _ Hv)|].
  unfold create_person, insert_person, created, assemble. simpl.
  unfold first_natural, insert_natural. simpl.
  rewrite (first_natural_new db (natural_row (person_id_seq db) d now)
             (ok_natural_ids _ Hok) eq_refl). simpl.
  rewrite (read_natural_row _ _ _ _ Hv). reflexivity.
Qed.

Lemma create_person_juridical (db : DB) (now : Z) (r : RawDetails.t)
  (d : JuridicalPersonDetailsBase.t) (a : bool) :
  db_ok db ->
  validate_JuridicalPersonDetailsBase r = Some d ->
  exists details,
    read_juridical (juridical_row (person_id_seq db) d now) = Some details /\
    create_person (PersonCreate.Build "juridical" (Some a) (JuridicalDetails d)) now db =
    (Success 201 (PersonReadJuridical (read_base (new_person "juridical" a now db)) details),
     MkDB (person db ++ [new_person "juridical" a now db])
       (natural_person_details db)
       (juridical_person_details db ++ [juridical_row (person_id_seq db) d now])
       (person_id_seq db + 1)).
Proof.
  intros Hok Hv. eexists. split; [apply (read_juridical_row _ _ _ _ Hv)|].
  unfold create_person, insert_person, created, assemble. simpl.
  unfold first_juridical, insert_juridical. simpl.
  rewrite (first_juridical_new db (juridical_row (person_id_seq db) d now)
             (ok_juridical_ids _ Hok) eq_refl). simpl.
  rewrite (read_juridical_row _ _ _ _ Hv). reflexivity.
Qed.

(** ** The invariant holds in every reachable store *)

Lemma details_ok_extends (db db' : DB) (ln : list NaturalPersonDetails.t)
  (lj : list JuridicalPersonDetails.t) (pid : Z) (type : string) :
  natural_person_details db' = (natural_person_details db ++ ln)%list ->
  juridical_person_details db' = (juridical_person_details db ++ lj)%list ->
  details_ok db pid type -> details_ok db' pid type.
Proof.
  unfold details_ok, first_natural, first_juridical. intros -> ->.
  destruct (String.eqb type "natural"); intros (d & r & Hf & Hr);
    exists d, r; split; auto using find_app_some.
Qed.

Lemma db_ok_insert (db db' : DB) (p : Person.t) (ln : list NaturalPersonDetails.t)
  (lj : list JuridicalPersonDetails.t) :
  db_ok db ->
  person db' = (person db ++ [p])%list ->
  natural_person_details db' = (natural_person_details db ++ ln)%list ->
  juridical_person_details db' = (juridical_person_details db ++ lj)%list ->
  person_id_seq db' = person_id_seq db + 1 ->
  Person.id p = person_id_seq db ->
  Forall (fun d => NaturalPersonDetails.person_id d = person_id_seq db) ln ->
  Forall (fun d => JuridicalPersonDetails.person_id d = person_id_seq db) lj ->
  details_ok db' (Person.id p) (Person.type p) ->
  db_ok db'.
Proof.
  intros [Hids Hnd Hn Hj Hd] Hp Hnat Hjur Hseq Hid Hln Hlj Hnew.
  split; rewrite ?Hp, ?Hnat, ?Hjur, ?Hseq.
  - apply Forall_app. split.
    + eapply Forall_impl; [|exact Hids]. simpl. intros; lia.
    + constructor; [lia|constructor].
  - rewrite map_app. simpl. apply NoDup_snoc; [exact Hnd|].
    intros Hin. apply in_map_iff in Hin. destruct Hin as (q & Hq & Hin).
    rewrite Forall_forall in Hids. specialize (Hids _ Hin). lia.
  - apply Forall_app. split.
    + eapply Forall_impl; [|exact Hn]. simpl. intros; lia.
    + eapply Forall_impl; [|exact Hln]. simpl. intros; lia.
  - apply Forall_app. split.
    + eapply Forall_impl; [|exact Hj]. simpl. intros; lia.
    + eapply Forall_impl; [|exact Hlj]. simpl. intros; lia.
  - apply Forall_app. split.
    + eapply Forall_impl; [|exact Hd]. simpl. intros q.
      now apply details_ok_extends with (ln := ln) (lj := lj).
    + constructor; [exact Hnew|constructor].
Qed.

Lemma mark_deleted_id (now : Z) (p : Person.t) :
  Person.id (mark_deleted now p) = Person.id p.
Proof. reflexivity. Qed.

Lemma update_deleted_ids (pid now : Z) (db : DB) :
  map Person.id (person (update_deleted pid now db)) = map Person.id (person db).
Proof.
  unfold update_deleted. simpl. rewrite map_map. apply map_ext.
  intros p. now destruct (Person.id p =? pid).
Qed.

Lemma db_ok_update_deleted (pid now : Z) (db : DB) :
  db_ok db -> db_ok (update_deleted pid now db).
Proof.
  intros [Hids Hnd Hn Hj Hd]. split; try assumption.
  - unfold update_deleted. simpl. apply Forall_map.
    eapply Forall_impl; [|exact Hids]. simpl. intros p.
    now destruct (Person.id p =? pid).
  - now rewrite update_deleted_ids.
  - unfold update_deleted. simpl. apply Forall_map.
    eapply Forall_impl; [|exact Hd]. simpl. intros p.
    now destruct (Person.id p =? pid).
Qed.

Lemma db_ok_create (p : PersonCreate.t) (r : RawPersonCreate.t) (now : Z) (db : DB) :
  db_ok db -> validate_PersonCreate r = Some p ->
  db_ok (snd (create_person p now db)).
Proof.
  intros Hok Hv.
  destruct (validate_PersonCreate_cases _ _ Hv) as [(d & Hd & ->)|(d & Hd & ->)];
    destruct (validate_active (RawPersonCreate.active r)) as [a|];
    try exact Hok.
  - destruct (create_person_natural db now _ d a Hok Hd) as (details & Hr & ->).
    simpl.
    eapply db_ok_insert with (p := new_person "natural" a now db)
      (ln := [natural_row (person_id_seq db) d now]) (lj := []);
      simpl; rewrite ?app_nil_r; try exact Hok; try reflexivity;
      try (repeat constructor; fail).
    unfold details_ok, first_natural. simpl.
    rewrite (first_natural_new db (natural_row (person_id_seq db) d now)
               (ok_natural_ids _ Hok) eq_refl).
    eauto.
  - destruct (create_person_juridical db now _ d a Hok Hd) as (details & Hr & ->).
    simpl.
    eapply db_ok_insert with (p := new_person "juridical" a now db)
      (ln := []) (lj := [juridical_row (person_id_seq db) d now]);
      simpl; rewrite ?app_nil_r; try exact Hok; try reflexivity;
      try (repeat constructor; fail).
    unfold details_ok, first_juridical. simpl.
    rewrite (first_juridical_new db (juridical_row (person_id_seq db) d now)
               (ok_juridical_ids _ Hok) eq_refl).
    eauto.
Qed.

Lemma delete_person_store (person_id now : Z) (db : DB) :
  snd (delete_person person_id now db) = db \/
  exists pid, snd (delete_person person_id now db) = update_deleted pid now db.
Proof.
  unfold delete_person. destruct (find _ _) as [p|]; [|now left].
  right. exists (Person.id p). now destruct (assemble _ _ _).
Qed.

Lemma app_ok (req : Request) (now : Z) (db : DB) :
  db_ok db -> db_ok (snd (app req now db)).
Proof.
  intros Hok. destruct req as [body|f raw|pid]; simpl.
  - destruct (validate_PersonCreate body) as [p|] eqn:Hv; [|exact Hok].
    pose proof (db_ok_create p body now db Hok Hv) as H.
    now destruct (create_person p now db).
  - now destruct (validate_Pagination raw).
  - pose proof (delete_person_store pid now db) as H.
    destruct (delete_person pid now db) as [r db']. simpl in *.
    destruct H as [->|(q & ->)]; auto using db_ok_update_deleted.
Qed.

Lemma reachable_ok (db : DB) : reachable db -> db_ok db.
Proof.
  induction 1; auto using empty_db_ok, app_ok.
Qed.

Lemma run_reachable (reqs : list (Request * Z)) (db : DB) :
  reachable db -> reachable (run reqs db).
Proof.
  revert db. induction reqs as [|[req now] reqs IH]; simpl; intros db H; auto.
  apply IH. now constructor.
Qed.

(** ** Creation: the type branch *)

Lemma created_cases (type : string) (p : Person.t) (db : DB) :
  (exists body, created type p db = (Success 201 body, db) /\
                assemble type p db = Some body) \/
  created type p db = (InternalServerError, db).
Proof.
  unfold created. destruct (assemble type p db); eauto.
Qed.

Lemma strip_natural_not_juridical (s : string) :
  Str.strip s = "natural" -> Str.strip s <> "juridical".
Proof. intros ->. discriminate. Qed.

Lemma validate_rejects_other_types (r : RawPersonCreate.t) :
  Str.strip (RawPersonCreate.type r) <> "natural" ->
  Str.strip (RawPersonCreate.type r) <> "juridical" ->
  validate_PersonCreate r = None.
Proof.
  intros Hn Hj.
  unfold validate_PersonCreate, validate_PersonCreateNatural,
    validate_PersonCreateJuridical, StringLiteral.
  apply String.eqb_neq in Hn, Hj. rewrite Hn, Hj. reflexivity.
Qed.

(** C9.  A payload that the [PersonCreate] union accepts has [type]
    exactly "natural" or exactly "juridical", and [create_person] never
    answers such a payload with an [HTTPException]: the branch that raises
    "Invalid person type" is not taken on a validated request. *)
Theorem invalid_type_branch_unreachable
  (r : RawPersonCreate.t) (p : PersonCreate.t) (now : Z) (db : DB) :
  validate_PersonCreate r = Some p ->
  (PersonCreate.type p = "natural" \/ PersonCreate.type p = "juridical") /\
  (forall status_code detail,
     fst (create_person p now db) <> HTTPException status_code detail).
Proof.
  intros Hv.
  destruct (validate_PersonCreate_cases _ _ Hv) as [(d & _ & ->)|(d & _ & ->)];
    (split; [simpl; auto|]); intros c m;
    unfold create_person, insert_person; simpl;
    destruct (validate_active (RawPersonCreate.active r)); simpl;
    try discriminate.
  - match goal with
    | |- fst (created ?t ?p ?d) <> _ =>
        destruct (created_cases t p d) as [(bd & -> & _)| ->]; discriminate
    end.
  - match goal with
    | |- fst (created ?t ?p ?d) <> _ =>
        destruct (created_cases t p d) as [(bd & -> & _)| ->]; discriminate
    end.
Qed.

Lemma invalid_type_branch_unreachable_witness :
  validate_PersonCreate (natural_person_data "John") <> None /\
  forall status_code detail,
    fst (app (POST_persons (natural_person_data "John")) 7 empty_db)
    <> HTTPException status_code detail.
Proof.
  split; [discriminate|]. intros c m.
  destruct (validate_PersonCreate (natural_person_data "John")) as [p|] eqn:E;
    [|discriminate].
  pose proof (proj2 (invalid_type_branch_unreachable
                       (natural_person_data "John") p 7 empty_db E) c m) as H.
  unfold app. rewrite E. destruct (create_person p 7 empty_db) as [resp db'].
  simpl in *. destruct resp; simpl; try discriminate.
  intros [= -> ->]. now apply H.
Defined.

(** C2.  When [person.type] is neither "natural" nor "juridical",
    [create_person] never answers with a success and writes no detail row;
    if the base row went in, the answer is the client error 400 "Invalid
    person type" and the store is left as it was right after the commit of
    that base row: the row stays.  A request with such a type (once
    trimmed, as the schema has it) that comes through the application is
    turned down by validation, a client error as well, with the store
    untouched. *)
Theorem create_person_invalid_type (payload : PersonCreate.t) (now : Z) (db : DB) :
  PersonCreate.type payload <> "natural" ->
  PersonCreate.type payload <> "juridical" ->
  (forall status_code body,
     fst (create_person payload now db) <> Success status_code body) /\
  natural_person_details (snd (create_person payload now db))
  = natural_person_details db /\
  juridical_person_details (snd (create_person payload now db))
  = juridical_person_details db /\
  (forall db_person db1,
     insert_person (PersonCreate.type payload) (PersonCreate.active payload) now db
     = Some (db_person, db1) ->
     create_person payload now db = (HTTPException 400 "Invalid person type", db1) /\
     client_error (fst (create_person payload now db)) /\
     In db_person (person db1) /\
     Person.type db_person = PersonCreate.type payload) /\
  (forall r : RawPersonCreate.t,
     Str.strip (RawPersonCreate.type r) = PersonCreate.type payload ->
     app (POST_persons r) now db = (RequestValidationError, db) /\
     client_error (fst (app (POST_persons r) now db))).
Proof.
  intros Hn Hj.
  assert (Hv : forall r : RawPersonCreate.t,
             Str.strip (RawPersonCreate.type r) = PersonCreate.type payload ->
             app (POST_persons r) now db = (RequestValidationError, db) /\
             client_error (fst (app (POST_persons r) now db))).
  { intros r Hr. simpl.
    rewrite validate_rejects_other_types by (rewrite Hr; assumption).
    unfold client_error. simpl. split; [reflexivity|lia]. }
  apply String.eqb_neq in Hn, Hj.
  unfold create_person.
  destruct (insert_person _ _ now db) as [[bp db1]|] eqn:Hi; rewrite ?Hn, ?Hj.
  - unfold insert_person in Hi.
    destruct (PersonCreate.active payload) as [a|]; [|discriminate].
    injection Hi as <- <-. simpl.
    split; [intros c bd; discriminate|].
    split; [reflexivity|]. split; [reflexivity|]. split; [|exact Hv].
    intros bp db1 [= <- <-]. unfold client_error. simpl.
    repeat split; try lia. apply in_or_app. right. now left.
  - simpl. split; [intros c bd; discriminate|].
    split; [reflexivity|]. split; [reflexivity|]. split; [|exact Hv].
    intros bp db1 [=].
Qed.

Lemma create_person_invalid_type_witness :
  create_person (PersonCreate.Build "martian" (Some true) (NaturalDetails john_base))
    7 empty_db
  = (HTTPException 400 "Invalid person type",
     MkDB [Person.Build 1 "martian" true 7 7 None] [] [] 2).
Proof.
  destruct (create_person_invalid_type
              (PersonCreate.Build "martian" (Some true) (NaturalDetails john_base))
              7 empty_db) as (_ & _ & _ & H & _); [discriminate|discriminate|].
  exact (proj1 (H _ _ eq_refl)).
Defined.

(** ** Deletion *)

Lemma NoDup_map_inj {A B : Type} (f : A -> B) (l : list A) (a b : A) :
  NoDup (map f l) -> In a l -> In b l -> f a = f b -> a = b.
Proof.
  induction l as [|x l IH]; simpl; [intros _ []|].
  intros Hnd Ha Hb Hab. inversion Hnd as [|y l' Hx Hl]; subst.
  destruct Ha as [->|Ha], Hb as [->|Hb]; auto.
  - exfalso. apply Hx. rewrite Hab. now apply in_map.
  - exfalso. apply Hx. rewrite <- Hab. now apply in_map.
Qed.






Lemma wonderland_reachable : reachable wonderland_db.
Proof. apply run_reachable. constructor. Qed.


(** ** The life cycle of a person row *)

Lemma Forall2_map_r {A B : Type} (R : A -> B -> Prop) (g : A -> B) (l : list A) :
  (forall a, In a l -> R a (g a)) -> Forall2 R l (map g l).
Proof.
  induction l as [|a l IH]; simpl; intros H; constructor; auto.
Qed.

Lemma Forall2_nth_error {A B : Type} (R : A -> B -> Prop) (l : list A) (l' : list B)
  (i : nat) (a : A) :
  Forall2 R l l' -> nth_error l i = Some a ->
  exists b, nth_error l' i = Some b /\ R a b.
Proof.
  intros H. revert i. induction H as [|x y l l' Hxy _ IH]; intros [|i]; simpl;
    try discriminate.
  - intros [= <-]. eauto.
  - apply IH.
Qed.

Lemma create_person_rows (p : PersonCreate.t) (now : Z) (db : DB) :
  exists added, person (snd (create_person p now db)) = (person db ++ added)%list.
Proof.
  unfold create_person, insert_person, created.
  destruct (PersonCreate.active p) as [a|];
    [|exists []; simpl; now rewrite app_nil_r].
  exists [Person.Build (person_id_seq db) (PersonCreate.type p) a now now None].
  destruct (String.eqb (PersonCreate.type p) "natural").
  - destruct (PersonCreate.details p); [|reflexivity].
    now destruct (assemble _ _ _).
  - destruct (String.eqb (PersonCreate.type p) "juridical"); [|reflexivity].
    destruct (PersonCreate.details p); [reflexivity|].
    now destruct (assemble _ _ _).
Qed.

Lemma app_person_rows (req : Request) (now : Z) (db : DB) :
  reachable db ->
  exists olds added,
    person (snd (app req now db)) = (olds ++ added)%list /\
    Forall2 (transition req now) (person db) olds.
Proof.
  intros Hre. pose proof (reachable_ok db Hre) as Hok.
  assert (Hrefl : forall l, Forall2 (transition req now) l l).
  { induction l; constructor; auto using transition_none. }
  destruct req as [body|f raw|pid]; simpl.
  - destruct (validate_PersonCreate body) as [p|].
    + destruct (create_person_rows p now db) as (added & H).
      destruct (create_person p now db) as [r db']. simpl in *.
      exists (person db), added. auto.
    + exists (person db), []. simpl. rewrite app_nil_r. auto.
  - exists (person db), [].
    destruct (validate_Pagination raw); simpl; rewrite app_nil_r; auto.
  - unfold delete_person.
    destruct (find _ _) as [p0|] eqn:E.
    + apply find_some in E. destruct E as (Hin & E).
      apply andb_prop in E. destruct E as (E1 & E2). apply Z.eqb_eq in E1.
      destruct (Person.deleted_at p0) eqn:Hdel; [discriminate|].
      exists (person (update_deleted (Person.id p0) now db)), [].
      split; [destruct (assemble _ _ _); simpl; now rewrite app_nil_r|].
      unfold update_deleted. simpl. apply Forall2_map_r. intros q Hq.
      destruct (Person.id q =? Person.id p0) eqn:Eq; [|constructor].
      apply Z.eqb_eq in Eq.
      assert (q = p0) as -> by
        now apply (NoDup_map_inj Person.id (person db) q p0 (ok_nodup _ Hok)).
      constructor; [now rewrite E1|assumption].
    + exists (person db), []. simpl. rewrite app_nil_r. auto.
Qed.

Lemma transition_id (req : Request) (now : Z) (p p' : Person.t) :
  transition req now p p' -> Person.id p' = Person.id p.
Proof. now destruct 1. Qed.

Lemma transition_deleted (req : Request) (now : Z) (p p' : Person.t) :
  transition req now p p' -> Person.deleted_at p <> None -> p' = p.
Proof. destruct 1; [reflexivity|congruence]. Qed.

Lemma app_row_kept (req : Request) (now : Z) (db : DB) (i : nat) (p : Person.t) :
  reachable db -> nth_error (person db) i = Some p ->
  exists p', nth_error (person (snd (app req now db))) i = Some p' /\
             transition req now p p'.
Proof.
  intros Hre Hi.
  destruct (app_person_rows req now db Hre) as (olds & added & -> & HF).
  destruct (Forall2_nth_error _ _ _ _ _ HF Hi) as (p' & Hp' & Ht).
  exists p'. split; [|exact Ht].
  rewrite nth_error_app1; [exact Hp'|].
  apply nth_error_Some. congruence.
Qed.

(** C8.  From a reachable store, one request leaves every stored person
    in place and either as it was or, when the request is the delete of
    this person's id and the person was not deleted, stamped as deleted;
    new rows are only added behind the old ones.  Over any run of
    requests, a row stays at its place with its id, and a person whose
    [deleted_at] is set is never changed again: no request undoes a delete
    nor removes a row. *)
Theorem soft_delete_one_way (db : DB) :
  reachable db ->
  (forall req now,
     exists olds added,
       person (snd (app req now db)) = (olds ++ added)%list /\
       Forall2 (transition req now) (person db) olds) /\
  (forall reqs i p,
     nth_error (person db) i = Some p ->
     exists p', nth_error (person (run reqs db)) i = Some p' /\
                Person.id p' = Person.id p) /\
  (forall reqs i p,
     nth_error (person db) i = Some p ->
     Person.deleted_at p <> None ->
     nth_error (person (run reqs db)) i = Some p).
Proof.
  intros Hre. split; [|split].
  - intros req now. now apply app_person_rows.
  - intros reqs. revert db Hre.
    induction reqs as [|[req now] reqs IH]; simpl; intros db Hre i p Hi; [eauto|].
    destruct (app_row_kept req now db i p Hre Hi) as (p1 & H1 & Ht).
    destruct (IH _ (reachable_step db req now Hre) i p1 H1) as (p' & Hp' & Hid).
    exists p'. split; [exact Hp'|].
    rewrite Hid. now apply transition_id with (req := req) (now := now).
  - intros reqs. revert db Hre.
    induction reqs as [|[req now] reqs IH]; simpl; intros db Hre i p Hi Hdel; auto.
    destruct (app_row_kept req now db i p Hre Hi) as (p1 & H1 & Ht).
    rewrite (transition_deleted _ _ _ _ Ht Hdel) in H1.
    now apply IH; [constructor| |].
Qed.

Lemma soft_delete_one_way_witness :
  nth_error
    (person (run [(DELETE_persons 1, 300);
                  (POST_persons (natural_person_data "Bob"), 301);
                  (GET_persons no_filter (RawPagination.Build None None), 302)]
               deleted_db)) 0
  = Some (Person.Build 1 "natural" true 100 200 (Some 200)).
Proof.
  apply (proj2 (proj2 (soft_delete_one_way deleted_db
                         (run_reachable _ _ wonderland_reachable)))).
  - reflexivity.
  - discriminate.
Defined.

(** ** Creation of a valid person *)











(** ** Validation at the boundary *)

Lemma in_range_required (lo hi : nat) (o : option string) (v : string) :
  obind (required o) (StringConstraints lo (Some hi)) = Some v ->
  out_of_range lo hi o = false.
Proof.
  unfold required, out_of_range, StringConstraints.
  destruct o as [s|]; simpl; [|discriminate].
  destruct (_ && _)%bool; [reflexivity|discriminate].
Qed.

Lemma in_range_optional (lo hi : nat) (o v : option string) :
  optional (StringConstraints lo (Some hi)) o = Some v ->
  out_of_range lo hi o = false.
Proof.
  unfold optional, out_of_range, StringConstraints.
  destruct o as [s|]; simpl; [|reflexivity].
  destruct (_ && _)%bool; [reflexivity|discriminate].
Qed.

Lemma validate_natural_in_range (d : RawDetails.t) (v : NaturalPersonDetailsBase.t) :
  validate_NaturalPersonDetailsBase d = Some v -> violates_natural d = false.
Proof.
  unfold validate_NaturalPersonDetailsBase, violates_natural. intros H.
  inv_bind H.
  now rewrite (in_range_required _ _ _ _ E), (in_range_required _ _ _ _ E0),
    (in_range_required _ _ _ _ E1), (in_range_required _ _ _ _ E2),
    (in_range_optional _ _ _ _ E3).
Qed.

Lemma validate_juridical_in_range (d : RawDetails.t) (v : JuridicalPersonDetailsBase.t) :
  validate_JuridicalPersonDetailsBase d = Some v -> violates_juridical d = false.
Proof.
  unfold validate_JuridicalPersonDetailsBase, violates_juridical. intros H.
  inv_bind H.
  now rewrite (in_range_required _ _ _ _ E), (in_range_required _ _ _ _ E0).
Qed.

Lemma violates_create_rejected (r : RawPersonCreate.t) :
  violates_create r = true -> validate_PersonCreate r = None.
Proof.
  unfold violates_create. intros H.
  destruct (validate_PersonCreate r) as [p|] eqn:Hv; [exfalso|reflexivity].
  unfold validate_PersonCreate in Hv.
  destruct (validate_PersonCreateNatural r) as [q|] eqn:Hn.
  - unfold validate_PersonCreateNatural in Hn. inv_bind Hn.
    unfold StringLiteral in E.
    destruct (String.eqb (Str.strip (RawPersonCreate.type r)) "natural") eqn:Et;
      [|discriminate].
    apply String.eqb_eq in Et. rewrite Et in H. simpl in H.
    rewrite (validate_natural_in_range _ _ E0) in H. discriminate.
  - unfold validate_PersonCreateJuridical in Hv. inv_bind Hv.
    unfold StringLiteral in E.
    destruct (String.eqb (Str.strip (RawPersonCreate.type r)) "juridical") eqn:Et;
      [|discriminate].
    apply String.eqb_eq in Et. rewrite Et in H. simpl in H.
    rewrite (validate_juridical_in_range _ _ E0) in H. discriminate.
Qed.

Lemma violates_pagination_rejected (r : RawPagination.t) :
  violates_pagination r = true -> validate_Pagination r = None.
Proof.
  unfold violates_pagination, validate_Pagination.
  destruct (RawPagination.skip r) as [s|], (RawPagination.limit r) as [l|];
    simpl; intros H;
    repeat match goal with
           | |- context [?a <=? ?b] => destruct (Z.leb_spec a b)
           | H : context [?a <? ?b] |- _ => destruct (Z.ltb_spec a b)
           end; simpl in *; try reflexivity; try discriminate; lia.
Qed.

(** C7 (amended).  A create request in which a detail field of the
    variant named by its type is, once trimmed, outside its length range
    (curp 18, rfc 12 to 13, the name fields at most 100, legal_name at most
    200), and a listing request with skip below 0 or limit outside 1..100,
    are answered with the validation error, a client error, and the store
    is left as it was: no handler runs. *)
Theorem boundary_violation_rejected (now : Z) (db : DB) :
  (forall r, violates_create r = true ->
     app (POST_persons r) now db = (RequestValidationError, db) /\
     client_error (fst (app (POST_persons r) now db))) /\
  (forall f r, violates_pagination r = true ->
     app (GET_persons f r) now db = (RequestValidationError, db) /\
     client_error (fst (app (GET_persons f r) now db))).
Proof.
  split.
  - intros r H. unfold app. rewrite (violates_create_rejected r H).
    unfold client_error. simpl. split; [reflexivity|lia].
  - intros f r H. unfold app. rewrite (violates_pagination_rejected r H).
    unfold client_error. simpl. split; [reflexivity|lia].
Qed.

Lemma boundary_violation_rejected_witness :
  app (POST_persons (curp_data "CURP1234")) 7 wonderland_db
  = (RequestValidationError, wonderland_db) /\
  app (GET_persons no_filter (RawPagination.Build (Some 0) (Some 101))) 7 wonderland_db
  = (RequestValidationError, wonderland_db).
Proof.
  destruct (boundary_violation_rejected 7 wonderland_db) as [Hc Hp]. split.
  - apply (Hc (curp_data "CURP1234")). reflexivity.
  - apply (Hp no_filter (RawPagination.Build (Some 0) (Some 101))). reflexivity.
Defined.

(** C7 as stated fails: a curp of 22 characters, 18 of them between
    blanks, is accepted, and the person is stored with the trimmed value. *)
Lemma padded_curp_accepted :
  String.length "  CURP12345678901234  " = 22%nat /\
  exists body,
    app (POST_persons (curp_data "  CURP12345678901234  ")) 7 empty_db
    = (Success 201 (PersonBody body),
       MkDB [Person.Build 1 "natural" true 7 7 None]
         [natural_row 1 john_base 7] [] 2) /\
    ~ client_error (fst (app (POST_persons (curp_data "  CURP12345678901234  "))
                           7 empty_db)).
Proof.
  split; [reflexivity|]. eexists. split; [reflexivity|].
  unfold client_error. simpl. lia.
Qed.

(** ** Listing *)

Lemma firstn_In {A : Type} (n : nat) (l : list A) (x : A) :
  In x (firstn n l) -> In x l.
Proof.
  intros H. rewrite <- (firstn_skipn n l). apply in_or_app. now left.
Qed.

Lemma skipn_In {A : Type} (n : nat) (l : list A) (x : A) :
  In x (skipn n l) -> In x l.
Proof.
  intros H. rewrite <- (firstn_skipn n l). apply in_or_app. now right.
Qed.

Lemma insert_by_id_In (p x : Person.t) (l : list Person.t) :
  In x (insert_by_id p l) <-> x = p \/ In x l.
Proof.
  induction l as [|q l IH]; simpl.
  - intuition.
  - destruct (Person.id p <? Person.id q); simpl; rewrite ?IH; intuition.
Qed.

Lemma order_by_id_In (x : Person.t) (l : list Person.t) :
  In x (order_by_id l) <-> In x l.
Proof.
  induction l as [|q l IH]; simpl; [reflexivity|].
  rewrite insert_by_id_In, IH. intuition.
Qed.

Lemma unique_from_In (seen : list Z) (l : list Person.t) (x : Person.t) :
  In x (unique_from seen l) -> In x l.
Proof.
  revert seen. induction l as [|q l IH]; simpl; intros seen; [auto|].
  destruct (existsb _ seen); simpl; intros H.
  - right. eauto.
  - destruct H; eauto.
Qed.

Lemma page_In (pagination : Pagination.t) (rows : list Person.t) (x : Person.t) :
  In x (page pagination rows) -> In x rows.
Proof.
  unfold page, unique. intros H.
  apply unique_from_In, firstn_In, skipn_In in H. now apply order_by_id_In.
Qed.

Lemma name_rows_In (pattern : string) (db : DB) (p x : Person.t) :
  In x (name_rows pattern db p) -> x = p.
Proof.
  unfold name_rows. intros H.
  apply in_flat_map in H. destruct H as (n & _ & H).
  apply in_flat_map in H. destruct H as (j & _ & H).
  destruct (_ || _)%bool; simpl in H; intuition.
Qed.

Lemma truthy_nonempty (s : string) : s <> "" -> Str.truthy s = true.
Proof.
  intros H. unfold Str.truthy. apply String.eqb_neq in H. now rewrite H.
Qed.

(** Every row of the filtered query is a stored person that is not deleted
    and agrees with the type filter (when it is a non-empty text) and with
    the active filter. *)
Lemma list_query_sound (f : PersonFilter.t) (db : DB) (p : Person.t) :
  In p (list_query f db) ->
  In p (person db) /\
  Person.deleted_at p = None /\
  (forall t, PersonFilter.type f = Some t -> t <> "" -> Person.type p = t) /\
  (forall a, PersonFilter.active f = Some a -> Person.active p = a).
Proof.
  unfold list_query. intros H.
  assert (H2 : In p
    match PersonFilter.active f with
    | Some a =>
        filter (fun p => Bool.eqb (Person.active p) a)
          match PersonFilter.type f with
          | Some t =>
              if Str.truthy t
              then filter (fun p => String.eqb (Person.type p) t)
                     (filter (fun p => is_null (Person.deleted_at p)) (person db))
              else filter (fun p => is_null (Person.deleted_at p)) (person db)
          | None => filter (fun p => is_null (Person.deleted_at p)) (person db)
          end
    | None =>
        match PersonFilter.type f with
        | Some t =>
            if Str.truthy t
            then filter (fun p => String.eqb (Person.type p) t)
                   (filter (fun p => is_null (Person.deleted_at p)) (person db))
            else filter (fun p => is_null (Person.deleted_at p)) (person db)
        | None => filter (fun p => is_null (Person.deleted_at p)) (person db)
        end
    end).
  { destruct (PersonFilter.name f) as [n|]; [|exact H].
    destruct (Str.truthy n); [|exact H].
    apply in_flat_map in H. destruct H as (q & Hq & H).
    apply name_rows_In in H. now subst. }
  clear H.
  assert (H1 : In p
    match PersonFilter.type f with
    | Some t =>
        if Str.truthy t
        then filter (fun p => String.eqb (Person.type p) t)
               (filter (fun p => is_null (Person.deleted_at p)) (person db))
        else filter (fun p => is_null (Person.deleted_at p)) (person db)
    | None => filter (fun p => is_null (Person.deleted_at p)) (person db)
    end /\ (forall a, PersonFilter.active f = Some a -> Person.active p = a)).
  { destruct (PersonFilter.active f) as [a|].
    - apply filter_In in H2. destruct H2 as (H2 & Ha). split; [exact H2|].
      intros a' [= <-]. now apply Bool.eqb_prop.
    - split; [exact H2|discriminate]. }
  destruct H1 as (H1 & Hact).
  assert (H0 : In p (filter (fun p => is_null (Person.deleted_at p)) (person db)) /\
               (forall t, PersonFilter.type f = Some t -> t <> "" -> Person.type p = t)).
  { destruct (PersonFilter.type f) as [t|].
    - destruct (Str.truthy t) eqn:Et.
      + apply filter_In in H1. destruct H1 as (H1 & Ht). split; [exact H1|].
        intros t' [= <-] _. now apply String.eqb_eq.
      + split; [exact H1|]. intros t' [= <-] Hne.
        rewrite (truthy_nonempty _ Hne) in Et. discriminate.
    - split; [exact H1|discriminate]. }
  destruct H0 as (H0 & Htype). apply filter_In in H0. destruct H0 as (Hin & Hd).
  repeat split; auto. now destruct (Person.deleted_at p).
Qed.






(** ** The name filter *)

Lemma like_plain (c : ascii) (pat s : list ascii) :
  plain_char c = true ->
  Str.like (c :: pat) s
  = match s with
    | [] => false
    | d :: s' => Ascii.eqb c d && Str.like pat s'
    end.
Proof.
  unfold plain_char. intros H.
  apply andb_prop in H. destruct H as (H & H3).
  apply andb_prop in H. destruct H as (H1 & H2).
  apply negb_true_iff in H1, H2, H3.
  simpl. rewrite H1, H2, H3. reflexivity.
Qed.

Lemma like_any (s : list ascii) : Str.like ["%"%char] s = true.
Proof.
  induction s as [|d s IH]; [reflexivity|].
  simpl in *. exact IH.
Qed.

Lemma like_prefix (p s : list ascii) :
  forallb plain_char p = true ->
  Str.like (p ++ ["%"%char]) s = Str.is_prefix p s.
Proof.
  revert s. induction p as [|c p IH]; intros s H.
  - apply like_any.
  - simpl in H. apply andb_prop in H. destruct H as (Hc & Hp).
    change ((c :: p) ++ ["%"%char])%list with (c :: (p ++ ["%"%char]))%list.
    rewrite (like_plain c _ s Hc). destruct s as [|d s]; [reflexivity|].
    simpl. now rewrite IH.
Qed.

Lemma like_occurs (p s : list ascii) :
  forallb plain_char p = true ->
  Str.like ("%"%char :: p ++ ["%"%char]) s = Str.occurs p s.
Proof.
  intros H. induction s as [|d s IH].
  - simpl. rewrite (like_prefix p [] H). now rewrite orb_false_r.
  - change (Str.like ("%"%char :: p ++ ["%"%char]) (d :: s))
      with (Str.like (p ++ ["%"%char]) (d :: s)
            || Str.like ("%"%char :: p ++ ["%"%char]) s).
    rewrite IH, (like_prefix p (d :: s) H). reflexivity.
Qed.

Lemma list_ascii_of_append (s t : string) :
  list_ascii_of_string (s ++ t)
  = (list_ascii_of_string s ++ list_ascii_of_string t)%list.
Proof.
  induction s as [|c s IH]; simpl; [reflexivity|now rewrite IH].
Qed.

Lemma lower_plain (c : ascii) : plain_char c = true -> plain_char (Str.lower_ascii c) = true.
Proof.
  destruct c as [[] [] [] [] [] [] [] []]; vm_compute; auto.
Qed.

(** X18.  On a filter text without the characters percent, underscore
    and backslash, the ILIKE test that [list_persons] builds from it holds
    exactly when the value contains the text, ignoring case. *)
Lemma ilike_contains_ci (value n : string) :
  plain_text n = true ->
  Str.ilike value ("%" ++ n ++ "%") = Str.contains_ci value n.
Proof.
  unfold plain_text, Str.ilike, Str.contains_ci, Str.lower. intros H.
  rewrite !list_ascii_of_append, !map_app. simpl.
  apply like_occurs.
  rewrite forallb_forall in *. intros c Hc.
  apply in_map_iff in Hc. destruct Hc as (d & <- & Hd).
  apply lower_plain. auto.
Qed.

(** C1, on the store of the repository's own name-filter test.  Listing
    with name "Wonderland" returns two persons, ids 1 and 2, with total 2;
    person 1 is the natural person named Alice, whose name does not contain
    the filter text: only person 2 matches in the specification's sense.
    The natural person is returned because every person row is paired with
    every juridical detail row.  For the same reason, in a store that holds
    Alice alone, listing with name "Alice" returns nothing. *)
Theorem name_filter_pairs_every_juridical_row :
  (exists body,
     list_persons (name_filter "Wonderland") default_page wonderland_db
     = Success 200 body /\
     PersonList.total body = 2 /\
     item_ids body = [1; 2] /\
     map Person.id (matching_persons (name_filter "Wonderland") wonderland_db) = [2] /\
     Str.contains_ci "Alice" "Wonderland" = false) /\
  (list_persons (name_filter "Alice") default_page alice_db
   = Success 200 (PersonList.Build 0 []) /\
   map Person.id (matching_persons (name_filter "Alice") alice_db) = [1]).
Proof.
  split.
  - eexists. split; [reflexivity|]. repeat split.
  - split; reflexivity.
Qed.





(** ** Pagination *)

Lemma filter_fuse {A : Type} (g h : A -> bool) (l : list A) :
  filter g (filter h l) = filter (fun x => h x && g x) l.
Proof.
  induction l as [|x l IH]; simpl; [reflexivity|].
  destruct (h x); simpl; [destruct (g x)|]; now rewrite IH.
Qed.

Lemma list_query_without_name (f : PersonFilter.t) (db : DB) :
  PersonFilter.name (in_effect f) = None ->
  list_query f db = matching_persons (in_effect f) db.
Proof.
  unfold list_query, matching_persons, in_effect, text_in_effect. simpl.
  intros Hn.
  assert (Hq : forall q : list Person.t,
             match PersonFilter.name f with
             | Some n =>
                 if Str.truthy n
                 then flat_map (name_rows ("%" ++ n ++ "%") db) q else q
             | None => q
             end = q).
  { intros q. destruct (PersonFilter.name f) as [n|]; [|reflexivity].
    destruct (Str.truthy n); [discriminate|reflexivity]. }
  rewrite Hq, Hn.
  destruct (PersonFilter.type f) as [t|]; [destruct (Str.truthy t)|];
    destruct (PersonFilter.active f) as [a|];
    rewrite ?filter_fuse; apply filter_ext; intros p;
    destruct (is_null (Person.deleted_at p));
    try destruct (String.eqb (Person.type p) t);
    try destruct (Bool.eqb (Person.active p) a); reflexivity.
Qed.

Lemma insert_by_id_perm (p : Person.t) (l : list Person.t) :
  Permutation (insert_by_id p l) (p :: l).
Proof.
  induction l as [|q l IH]; simpl; [reflexivity|].
  destruct (Person.id p <? Person.id q); [reflexivity|].
  rewrite IH. apply perm_swap.
Qed.

Lemma order_by_id_perm (l : list Person.t) : Permutation (order_by_id l) l.
Proof.
  induction l as [|p l IH]; simpl; [reflexivity|].
  rewrite insert_by_id_perm. now constructor.
Qed.

Lemma insert_by_id_sorted (p : Person.t) (l : list Person.t) :
  StronglySorted by_id l -> StronglySorted by_id (insert_by_id p l).
Proof.
  induction 1 as [|q l Hl IH Hq]; simpl.
  - repeat constructor.
  - destruct (Z.ltb_spec (Person.id p) (Person.id q)).
    + constructor; [now constructor|]. constructor; [unfold by_id; lia|].
      eapply Forall_impl; [|exact Hq]. unfold by_id. intros; lia.
    + constructor; [exact IH|]. apply Forall_forall. intros x Hx.
      apply insert_by_id_In in Hx. destruct Hx as [->|Hx].
      * unfold by_id. lia.
      * rewrite Forall_forall in Hq. auto.
Qed.

Lemma order_by_id_sorted (l : list Person.t) : StronglySorted by_id (order_by_id l).
Proof.
  induction l as [|p l IH]; simpl; [constructor|now apply insert_by_id_sorted].
Qed.

Lemma NoDup_ids_filter (g : Person.t -> bool) (l : list Person.t) :
  NoDup (map Person.id l) -> NoDup (map Person.id (filter g l)).
Proof.
  induction l as [|p l IH]; simpl; [auto|].
  intros H. inversion H as [|? ? Hp Hl]; subst.
  destruct (g p); simpl; [|auto]. constructor; [|auto].
  intros Hin. apply Hp. apply in_map_iff in Hin. destruct Hin as (q & Hq & Hin).
  apply filter_In in Hin. apply in_map_iff. exists q. tauto.
Qed.

Lemma NoDup_ids_window (n m : nat) (l : list Person.t) :
  NoDup (map Person.id l) -> NoDup (map Person.id (firstn n (skipn m l))).
Proof.
  intros H. rewrite <- (firstn_skipn m l), map_app in H.
  apply NoDup_app_remove_l in H.
  rewrite <- (firstn_skipn n (skipn m l)), map_app in H.
  now apply NoDup_app_remove_r in H.
Qed.

Lemma unique_from_nodup (seen : list Z) (l : list Person.t) :
  NoDup (map Person.id l) ->
  (forall x, In x seen -> ~ In x (map Person.id l)) ->
  unique_from seen l = l.
Proof.
  revert seen. induction l as [|p l IH]; simpl; intros seen Hnd Hs; [reflexivity|].
  inversion Hnd as [|? ? Hp Hl]; subst.
  destruct (existsb (Z.eqb (Person.id p)) seen) eqn:E.
  - apply existsb_exists in E. destruct E as (x & Hx & E).
    apply Z.eqb_eq in E. subst x. exfalso. apply (Hs _ Hx). now left.
  - f_equal. apply IH; [exact Hl|]. intros x [<-|Hx] Hin; [auto|].
    apply (Hs x Hx). now right.
Qed.

(** Without duplicate keys the page is the plain window of the ordered rows. *)
Lemma page_nodup (pagination : Pagination.t) (rows : list Person.t) :
  NoDup (map Person.id rows) ->
  page pagination rows
  = firstn (Z.to_nat (Pagination.limit pagination))
      (skipn (Z.to_nat (Pagination.skip pagination)) (order_by_id rows)).
Proof.
  intros H. unfold page, unique. apply unique_from_nodup; [|intros x []].
  apply NoDup_ids_window.
  apply (Permutation_NoDup (l := map Person.id rows)); [|exact H].
  apply Permutation_map. symmetry. apply order_by_id_perm.
Qed.




(** ** What validation hands to the handlers *)

Lemma strip_trimmed (s : string) : trimmed (Str.strip s).
Proof. apply strip_idem. Qed.

Lemma constrained_field (lo hi : nat) (o : option string) (v : string) :
  obind (required o) (StringConstraints lo (Some hi)) = Some v ->
  trimmed_from o v /\ within lo hi v /\ trimmed v.
Proof.
  unfold required, StringConstraints, trimmed_from, within.
  destruct o as [s|]; simpl; [|discriminate].
  destruct (_ && _)%bool eqn:E; [|discriminate]. intros [= <-].
  apply andb_prop in E. destruct E as (E1 & E2).
  apply Nat.leb_le in E1, E2.
  split; [eauto|]. split; [lia|apply strip_trimmed].
Qed.

Lemma constrained_optional (lo hi : nat) (o v : option string) :
  optional (StringConstraints lo (Some hi)) o = Some v ->
  match v with
  | Some w => trimmed_from o w /\ within lo hi w /\ trimmed w
  | None => o = None
  end.
Proof.
  destruct o as [s|]; simpl.
  - intros H. inv_bind H. injection H as <-.
    apply (constrained_field lo hi (Some s)). exact E.
  - now intros [= <-].
Qed.

(** X1.  Natural details that pass validation hold, for each text field,
    the trimmed text that was sent: a curp of exactly 18 characters, an rfc
    of 12 to 13, a name and a first last name of at most 100, and a second
    last name that is absent exactly when none was sent and of at most 100
    characters otherwise; the date of birth is passed on as it came. *)
Theorem validated_natural_details (r : RawDetails.t) (d : NaturalPersonDetailsBase.t) :
  validate_NaturalPersonDetailsBase r = Some d ->
  (trimmed_from (RawDetails.curp r) (NaturalPersonDetailsBase.curp d) /\
   String.length (NaturalPersonDetailsBase.curp d) = 18%nat) /\
  (trimmed_from (RawDetails.rfc r) (NaturalPersonDetailsBase.rfc d) /\
   within 12 13 (NaturalPersonDetailsBase.rfc d)) /\
  (trimmed_from (RawDetails.name r) (NaturalPersonDetailsBase.name d) /\
   within 0 100 (NaturalPersonDetailsBase.name d)) /\
  (trimmed_from (RawDetails.first_last_name r)
     (NaturalPersonDetailsBase.first_last_name d) /\
   within 0 100 (NaturalPersonDetailsBase.first_last_name d)) /\
  match NaturalPersonDetailsBase.second_last_name d with
  | Some w => trimmed_from (RawDetails.second_last_name r) w /\ within 0 100 w
  | None => RawDetails.second_last_name r = None
  end /\
  NaturalPersonDetailsBase.date_of_birth d = RawDetails.date_of_birth r.
Proof.
  unfold validate_NaturalPersonDetailsBase. intros H. inv_bind H.
  injection H as <-. simpl.
  apply constrained_field in E, E0, E1, E2. apply constrained_optional in E3.
  destruct E as (? & Hc & _), E0 as (? & ? & _), E1 as (? & ? & _),
    E2 as (? & ? & _).
  repeat split; auto; try (unfold within in *; lia).
  destruct v3 as [w|]; [tauto|exact E3].
Qed.

Lemma validated_natural_details_witness :
  String.length (NaturalPersonDetailsBase.curp john_base) = 18%nat /\
  trimmed_from (Some "  John ") "John".
Proof.
  destruct (validated_natural_details
              (RawDetails.Build (Some " CURP12345678901234") (Some "RFC123456789")
                 (Some "  John ") (Some "Doe") (Some "Smith")
                 (Some (Date 1990 1 1)) None None None)
              john_base eq_refl) as ((_ & Hc) & _ & (Hn & _) & _).
  split; [exact Hc|exact Hn].
Defined.

(** X2.  Juridical details that pass validation hold the trimmed rfc that
    was sent, of 12 to 13 characters, and the trimmed legal name, of at most
    200; the incorporation date is passed on as it came. *)
Theorem validated_juridical_details (r : RawDetails.t)
  (d : JuridicalPersonDetailsBase.t) :
  validate_JuridicalPersonDetailsBase r = Some d ->
  (trimmed_from (RawDetails.rfc r) (JuridicalPersonDetailsBase.rfc d) /\
   within 12 13 (JuridicalPersonDetailsBase.rfc d)) /\
  (trimmed_from (RawDetails.legal_name r) (JuridicalPersonDetailsBase.legal_name d) /\
   within 0 200 (JuridicalPersonDetailsBase.legal_name d)) /\
  JuridicalPersonDetailsBase.incorporation_date d = RawDetails.incorporation_date r.
Proof.
  unfold validate_JuridicalPersonDetailsBase. intros H. inv_bind H.
  injection H as <-. simpl.
  apply constrained_field in E, E0. tauto.
Qed.

Lemma validated_juridical_details_witness :
  trimmed_from (Some " Acme Corporation  ") "Acme Corporation" /\
  within 0 200 "Acme Corporation".
Proof.
  destruct (validated_juridical_details
              (juridical_details " Acme Corporation  ")
              (JuridicalPersonDetailsBase.Build "RFC987654321" "Acme Corporation"
                 (Some (Date 2000 5 15))) eq_refl) as (_ & H & _).
  exact H.
Defined.

(** X3.  The two variants of the [PersonCreate] union never accept the
    same request.  A request that the union accepts is accepted by the
    variant that its trimmed type names, the payload carries details of
    that variant's shape, and its type is the trimmed type. *)
Theorem union_variant_by_type (r : RawPersonCreate.t) :
  (validate_PersonCreateNatural r = None \/ validate_PersonCreateJuridical r = None) /\
  (forall p, validate_PersonCreate r = Some p ->
     PersonCreate.type p = Str.strip (RawPersonCreate.type r) /\
     ((PersonCreate.type p = "natural" /\
       validate_PersonCreateNatural r = Some p /\
       exists d, PersonCreate.details p = NaturalDetails d) \/
      (PersonCreate.type p = "juridical" /\
       validate_PersonCreateJuridical r = Some p /\
       exists d, PersonCreate.details p = JuridicalDetails d))).
Proof.
  split.
  - unfold validate_PersonCreateNatural, validate_PersonCreateJuridical,
      StringLiteral.
    destruct (String.eqb (Str.strip (RawPersonCreate.type r)) "natural") eqn:En.
    + apply String.eqb_eq in En. rewrite En. right. reflexivity.
    + left. reflexivity.
  - intros p H. unfold validate_PersonCreate in H.
    destruct (validate_PersonCreateNatural r) as [q|] eqn:En.
    + injection H as <-. pose proof En as En'.
      unfold validate_PersonCreateNatural in En. inv_bind En.
      injection En as <-. simpl.
      unfold StringLiteral in E.
      destruct (String.eqb _ _) eqn:Et; [|discriminate].
      injection E as <-. apply String.eqb_eq in Et.
      split; [reflexivity|]. left. rewrite Et in *. eauto.
    + pose proof H as H'.
      unfold validate_PersonCreateJuridical in H. inv_bind H.
      injection H as <-. simpl.
      unfold StringLiteral in E.
      destruct (String.eqb _ _) eqn:Et; [|discriminate].
      injection E as <-. apply String.eqb_eq in Et.
      split; [reflexivity|]. right. rewrite Et in *. eauto.
Qed.

Lemma union_variant_by_type_witness :
  validate_PersonCreateJuridical (natural_person_data "John") = None /\
  validate_PersonCreateNatural (juridical_person_data "Acme") = None.
Proof.
  split.
  - destruct (union_variant_by_type (natural_person_data "John")) as [[H|H] _];
      [discriminate H|exact H].
  - destruct (union_variant_by_type (juridical_person_data "Acme")) as [[H|H] _];
      [exact H|discriminate H].
Defined.

Lemma StringLiteral_idem (lit s v : string) :
  StringLiteral lit s = Some v -> StringLiteral lit v = Some v.
Proof.
  unfold StringLiteral. destruct (String.eqb _ _) eqn:E; [|discriminate].
  intros [= <-]. now rewrite strip_idem, E.
Qed.

Lemma validate_natural_idem (r : RawDetails.t) (d : NaturalPersonDetailsBase.t) :
  validate_NaturalPersonDetailsBase r = Some d ->
  validate_NaturalPersonDetailsBase (raw_of_natural d) = Some d.
Proof.
  unfold validate_NaturalPersonDetailsBase, required. intros H. inv_bind H.
  injection H as <-. inv_bind E. inv_bind E0. inv_bind E1. inv_bind E2.
  simpl.
  rewrite (StringConstraints_idem _ _ _ _ E), (StringConstraints_idem _ _ _ _ E0),
    (StringConstraints_idem _ _ _ _ E1), (StringConstraints_idem _ _ _ _ E2).
  simpl.
  rewrite (optional_idem _ _ _
             (fun s w => StringConstraints_idem 0 (Some 100%nat) s w) E3).
  reflexivity.
Qed.

Lemma validate_juridical_idem (r : RawDetails.t) (d : JuridicalPersonDetailsBase.t) :
  validate_JuridicalPersonDetailsBase r = Some d ->
  validate_JuridicalPersonDetailsBase (raw_of_juridical d) = Some d.
Proof.
  unfold validate_JuridicalPersonDetailsBase, required. intros H. inv_bind H.
  injection H as <-. inv_bind E. inv_bind E0. simpl.
  rewrite (StringConstraints_idem _ _ _ _ E), (StringConstraints_idem _ _ _ _ E0).
  reflexivity.
Qed.

(** X4.  Validation is stable: a payload that came out of the validation
    of some request, sent again as it is, is accepted and comes out
    unchanged. *)
Theorem validate_PersonCreate_stable (r : RawPersonCreate.t) (p : PersonCreate.t) :
  validate_PersonCreate r = Some p ->
  validate_PersonCreate (raw_of p) = Some p.
Proof.
  intros H.
  destruct (validate_PersonCreate_cases _ _ H) as [(d & Hd & ->)|(d & Hd & ->)];
    unfold validate_PersonCreate, validate_PersonCreateNatural,
      validate_PersonCreateJuridical, raw_of; simpl.
  - rewrite (validate_natural_idem _ _ Hd). reflexivity.
  - rewrite (validate_juridical_idem _ _ Hd). reflexivity.
Qed.

Lemma validate_PersonCreate_stable_witness :
  validate_PersonCreate
    (raw_of (PersonCreate.Build "natural" (Some true) (NaturalDetails john_base)))
  = Some (PersonCreate.Build "natural" (Some true) (NaturalDetails john_base)).
Proof.
  apply (validate_PersonCreate_stable
           (RawPersonCreate.Build " natural " None
              (RawDetails.Build (Some " CURP12345678901234") (Some "RFC123456789")
                 (Some "  John ") (Some "Doe") (Some "Smith")
                 (Some (Date 1990 1 1)) None None None))).
  reflexivity.
Defined.

(** X5.  Pagination is accepted exactly when skip, 0 if absent, is not
    negative and limit, 10 if absent, lies between 1 and 100; the accepted
    values are the ones sent or these defaults. *)
Theorem validate_Pagination_spec (r : RawPagination.t) (p : Pagination.t) :
  validate_Pagination r = Some p <->
  Pagination.skip p = match RawPagination.skip r with Some v => v | None => 0 end /\
  Pagination.limit p = match RawPagination.limit r with Some v => v | None => 10 end /\
  0 <= Pagination.skip p /\ 1 <= Pagination.limit p <= 100.
Proof.
  unfold validate_Pagination.
  set (s := match RawPagination.skip r with Some v => v | None => 0 end).
  set (l := match RawPagination.limit r with Some v => v | None => 10 end).
  destruct p as [ps pl]. simpl. split.
  - destruct (_ && _)%bool eqn:E; [|discriminate]. intros [= <- <-].
    apply andb_prop in E. destruct E as (E & E3).
    apply andb_prop in E. destruct E as (E1 & E2).
    apply Z.leb_le in E1, E2, E3. lia.
  - intros (-> & -> & H1 & H2 & H3).
    apply Z.leb_le in H1, H2, H3. now rewrite H1, H2, H3.
Qed.

(** ** User schemas *)

(** X6.  A user that [UserCreate] accepts has the trimmed username that
    was sent, of 1 to 50 characters, the e-mail address as the address
    check returned it, a name that is absent when none was sent and the
    trimmed name of at most 100 characters otherwise, and is active when
    the request did not say.  A username that is blank once trimmed is
    turned down. *)
Theorem validated_UserCreate (EmailStr : string -> option string)
  (r : RawUserCreate.t) :
  (forall u, validate_UserCreate EmailStr r = Some u ->
     (trimmed_from (RawUserCreate.username r) (UserCreate.username u) /\
      within 1 50 (UserCreate.username u)) /\
     (exists e, RawUserCreate.email r = Some e /\
                EmailStr e = Some (UserCreate.email u)) /\
     match UserCreate.name u with
     | Some w => trimmed_from (RawUserCreate.name r) w /\ within 0 100 w
     | None => RawUserCreate.name r = None
     end /\
     (RawUserCreate.is_active r = None -> UserCreate.is_active u = true)) /\
  (forall s, RawUserCreate.username r = Some s -> Str.strip s = "" ->
     validate_UserCreate EmailStr r = None).
Proof.
  split.
  - unfold validate_UserCreate. intros u H. inv_bind H. injection H as <-. simpl.
    apply constrained_field in E. apply constrained_optional in E1.
    unfold required in E0. inv_bind E0.
    split; [tauto|]. split; [eauto|]. split.
    + destruct v1 as [w|]; [tauto|exact E1].
    + intros Ha. rewrite Ha in E2. simpl in E2. congruence.
  - intros s Hs Hb. unfold validate_UserCreate, required, StringConstraints.
    rewrite Hs. simpl. rewrite Hb. reflexivity.
Qed.

Lemma validated_UserCreate_witness :
  validate_UserCreate Some
    (RawUserCreate.Build (Some " ada ") (Some "ada@example.org") None None)
  = Some (UserCreate.Build "ada" "ada@example.org" None true) /\
  validate_UserCreate Some
    (RawUserCreate.Build (Some "   ") (Some "ada@example.org") None None)
  = None.
Proof.
  split; [reflexivity|].
  apply (proj2 (validated_UserCreate Some
                  (RawUserCreate.Build (Some "   ") (Some "ada@example.org")
                     None None)) "   "); reflexivity.
Defined.

(** X7.  In [UserUpdate] every field may be left out: a field of the
    accepted update is absent exactly when it was not sent.  A username
    that is sent comes out trimmed, with 1 to 50 characters, so that a blank
    one is turned down; a name that is sent comes out trimmed, with at most
    100 characters. *)
Theorem validated_UserUpdate (EmailStr : string -> option string)
  (r : RawUserUpdate.t) :
  (forall u, validate_UserUpdate EmailStr r = Some u ->
     match UserUpdate.username u with
     | Some w => trimmed_from (RawUserUpdate.username r) w /\ within 1 50 w
     | None => RawUserUpdate.username r = None
     end /\
     match UserUpdate.email u with
     | Some w => exists e, RawUserUpdate.email r = Some e /\ EmailStr e = Some w
     | None => RawUserUpdate.email r = None
     end /\
     match UserUpdate.name u with
     | Some w => trimmed_from (RawUserUpdate.name r) w /\ within 0 100 w
     | None => RawUserUpdate.name r = None
     end) /\
  (RawUserUpdate.username r = None -> RawUserUpdate.email r = None ->
   RawUserUpdate.name r = None ->
   validate_UserUpdate EmailStr r = Some (UserUpdate.Build None None None)) /\
  (forall s, RawUserUpdate.username r = Some s -> Str.strip s = "" ->
     validate_UserUpdate EmailStr r = None).
Proof.
  split; [|split].
  - unfold validate_UserUpdate. intros u H. inv_bind H. injection H as <-. simpl.
    apply constrained_optional in E, E1.
    split; [destruct v as [w|]; [tauto|exact E]|].
    split; [|destruct v1 as [w|]; [tauto|exact E1]].
    destruct (RawUserUpdate.email r) as [e|]; simpl in E0.
    + inv_bind E0. injection E0 as <-. eauto.
    + now injection E0 as <-.
  - intros H1 H2 H3. unfold validate_UserUpdate. now rewrite H1, H2, H3.
  - intros s Hs Hb. unfold validate_UserUpdate, StringConstraints.
    rewrite Hs. simpl. rewrite Hb. reflexivity.
Qed.

Lemma validated_UserUpdate_witness :
  validate_UserUpdate Some (RawUserUpdate.Build None None None)
  = Some (UserUpdate.Build None None None) /\
  validate_UserUpdate Some (RawUserUpdate.Build (Some " 	") None (Some "Ada"))
  = None.
Proof.
  split.
  - apply (proj1 (proj2 (validated_UserUpdate Some
                           (RawUserUpdate.Build None None None)))); reflexivity.
  - apply (proj2 (proj2 (validated_UserUpdate Some
                           (RawUserUpdate.Build (Some " 	") None (Some "Ada"))))
             " 	"); reflexivity.
Defined.

(** ** Order and size of a listing *)

Lemma StronglySorted_skipn {A : Type} (R : A -> A -> Prop) (n : nat) (l : list A) :
  StronglySorted R l -> StronglySorted R (skipn n l).
Proof.
  revert l. induction n as [|n IH]; intros l H; [exact H|].
  destruct l as [|a l]; [exact H|]. simpl. apply IH.
  now inversion H.
Qed.

Lemma StronglySorted_firstn {A : Type} (R : A -> A -> Prop) (n : nat) (l : list A) :
  StronglySorted R l -> StronglySorted R (firstn n l).
Proof.
  revert l. induction n as [|n IH]; intros l H; [constructor|].
  destruct l as [|a l]; [constructor|]. simpl.
  inversion H as [|? ? Hl Ha]; subst. constructor; [now apply IH|].
  apply Forall_forall. intros x Hx. apply firstn_In in Hx.
  rewrite Forall_forall in Ha. auto.
Qed.

Lemma existsb_seen (x : Z) (seen : list Z) :
  existsb (Z.eqb x) seen = false -> ~ In x seen.
Proof.
  intros H Hin.
  assert (E : existsb (Z.eqb x) seen = true).
  { apply existsb_exists. exists x. split; [exact Hin|apply Z.eqb_refl]. }
  congruence.
Qed.

Lemma unique_from_fresh (seen : list Z) (l : list Person.t) (q : Person.t) :
  In q (unique_from seen l) -> ~ In (Person.id q) seen.
Proof.
  revert seen. induction l as [|p l IH]; simpl; intros seen; [intros []|].
  destruct (existsb (Z.eqb (Person.id p)) seen) eqn:E; [apply IH|].
  intros [<-|H]; [now apply existsb_seen|].
  apply IH in H. intros Hin. apply H. now right.
Qed.

Lemma unique_from_sorted (seen : list Z) (l : list Person.t) :
  StronglySorted by_id l -> StronglySorted lt_id (unique_from seen l).
Proof.
  intros H. revert seen. induction H as [|p l Hl IH Hp]; intros seen; simpl;
    [constructor|].
  destruct (existsb (Z.eqb (Person.id p)) seen); [apply IH|].
  constructor; [apply IH|]. apply Forall_forall. intros q Hq.
  pose proof (unique_from_fresh _ _ _ Hq) as Hf.
  apply unique_from_In in Hq. rewrite Forall_forall in Hp.
  specialize (Hp q Hq). unfold by_id in Hp. unfold lt_id.
  assert (Person.id q <> Person.id p) by (intros E; apply Hf; now left).
  lia.
Qed.

Lemma unique_from_length (seen : list Z) (l : list Person.t) :
  (List.length (unique_from seen l) <= List.length l)%nat.
Proof.
  revert seen. induction l as [|p l IH]; intros seen; simpl; [lia|].
  destruct (existsb _ seen); simpl.
  - specialize (IH seen). lia.
  - specialize (IH (Person.id p :: seen)). lia.
Qed.

Lemma page_sorted (pagination : Pagination.t) (rows : list Person.t) :
  StronglySorted lt_id (page pagination rows).
Proof.
  unfold page, unique.
  apply unique_from_sorted, StronglySorted_firstn, StronglySorted_skipn,
    order_by_id_sorted.
Qed.

Lemma page_length (pagination : Pagination.t) (rows : list Person.t) :
  (List.length (page pagination rows) <= Z.to_nat (Pagination.limit pagination))%nat /\
  (List.length (page pagination rows) <= List.length rows)%nat.
Proof.
  unfold page, unique.
  pose proof (unique_from_length []
                (firstn (Z.to_nat (Pagination.limit pagination))
                   (skipn (Z.to_nat (Pagination.skip pagination))
                      (order_by_id rows)))) as H.
  rewrite length_firstn, length_skipn in H.
  rewrite (Permutation_length (order_by_id_perm rows)) in H. lia.
Qed.

(** A listing that is answered: its total and where its items come from. *)
Lemma list_persons_answer (f : PersonFilter.t) (pagination : Pagination.t) (db : DB)
  (status_code : Z) (l : PersonList.t) :
  list_persons f pagination db = Success status_code l ->
  status_code = 200 /\
  PersonList.total l = Z.of_nat (List.length (list_query f db)) /\
  Forall2 (fun p it => assemble (Person.type p) p db = Some it)
    (page pagination (list_query f db)) (PersonList.items l).
Proof.
  unfold list_persons. destruct (offset_limit_ok pagination); [|discriminate].
  destruct (traverse _ _) as [items|] eqn:E; [|discriminate].
  intros [= <- <-]. simpl. repeat split. now apply traverse_Forall2.
Qed.

Lemma item_ids_page (db : DB) (rows : list Person.t) (items : list PersonRead) :
  Forall2 (fun p it => assemble (Person.type p) p db = Some it) rows items ->
  map (fun it => PersonBase.id (base_of it)) items = map Person.id rows.
Proof.
  induction 1 as [|p it rows items Hp _ IH]; simpl; [reflexivity|].
  now rewrite IH, (assemble_base _ _ _ _ Hp).
Qed.

Lemma StronglySorted_ids (l : list Person.t) :
  StronglySorted lt_id l -> StronglySorted Z.lt (map Person.id l).
Proof.
  induction 1 as [|p l _ IH Hp]; simpl; constructor; [exact IH|].
  apply Forall_map. exact Hp.
Qed.

Lemma validate_Pagination_bounds (r : RawPagination.t) (p : Pagination.t) :
  validate_Pagination r = Some p ->
  0 <= Pagination.skip p /\ 1 <= Pagination.limit p <= 100.
Proof.
  unfold validate_Pagination. destruct (_ && _)%bool eqn:E; [|discriminate].
  intros [= <-]. simpl.
  apply andb_prop in E. destruct E as (E & E3).
  apply andb_prop in E. destruct E as (E1 & E2).
  apply Z.leb_le in E1, E2, E3. lia.
Qed.

(** X8.  Whatever the filters, the persons of an answered listing come in
    strictly ascending order of their ids: the page is ordered and no
    person is in it twice. *)
Theorem list_persons_ascending (f : PersonFilter.t) (pagination : Pagination.t)
  (db : DB) (l : PersonList.t) :
  list_persons f pagination db = Success 200 l ->
  StronglySorted Z.lt (item_ids l).
Proof.
  intros H. apply list_persons_answer in H. destruct H as (_ & _ & HF).
  unfold item_ids. rewrite (item_ids_page _ _ _ HF).
  apply StronglySorted_ids, page_sorted.
Qed.

Lemma list_persons_ascending_witness :
  exists l,
    list_persons (name_filter "Alice") default_page three_db = Success 200 l /\
    StronglySorted Z.lt (item_ids l).
Proof.
  eexists. split; [reflexivity|].
  apply (list_persons_ascending (name_filter "Alice") default_page three_db).
  reflexivity.
Defined.

(** X9.  An answered listing holds at most [limit] items and never more
    items than its total; served through the application it holds at most
    100 items, and the store is left as it was. *)
Theorem list_persons_size (f : PersonFilter.t) (db : DB) :
  (forall pagination l,
     list_persons f pagination db = Success 200 l ->
     (List.length (PersonList.items l) <= Z.to_nat (Pagination.limit pagination))%nat /\
     Z.of_nat (List.length (PersonList.items l)) <= PersonList.total l) /\
  (forall raw now status_code l db',
     app (GET_persons f raw) now db = (Success status_code (ListBody l), db') ->
     (List.length (PersonList.items l) <= 100)%nat /\ db' = db).
Proof.
  assert (Hsize : forall pagination l,
     list_persons f pagination db = Success 200 l ->
     (List.length (PersonList.items l) <= Z.to_nat (Pagination.limit pagination))%nat /\
     Z.of_nat (List.length (PersonList.items l)) <= PersonList.total l).
  { intros pg l H. apply list_persons_answer in H. destruct H as (_ & Ht & HF).
    rewrite Ht, <- (Forall2_length HF).
    destruct (page_length pg (list_query f db)). lia. }
  split; [exact Hsize|].
  intros raw now c l db' H. simpl in H.
  destruct (validate_Pagination raw) as [pg|] eqn:Ev; [|discriminate].
  destruct (list_persons f pg db) as [c' b| | |] eqn:El; simpl in H;
    try discriminate.
  injection H as <- <- <-. split; [|reflexivity].
  destruct (list_persons_answer _ _ _ _ _ El) as (-> & _).
  destruct (Hsize pg b El) as (Hl & _).
  apply validate_Pagination_bounds in Ev. lia.
Qed.

Lemma list_persons_size_witness :
  let l := answer_of (list_persons no_filter (Pagination.Build 0 1) wonderland_db) in
  (List.length (PersonList.items l) <= 1)%nat /\
  Z.of_nat (List.length (PersonList.items l)) <= PersonList.total l.
Proof.
  apply (proj1 (list_persons_size no_filter wonderland_db) (Pagination.Build 0 1)).
  vm_compute. reflexivity.
Defined.

(** ** Deleting and listing *)

Lemma run_row_kept (reqs : list (Request * Z)) (db : DB) (i : nat) (p : Person.t) :
  reachable db ->
  nth_error (person db) i = Some p ->
  Person.deleted_at p <> None ->
  nth_error (person (run reqs db)) i = Some p.
Proof.
  revert db. induction reqs as [|[req now] reqs IH]; simpl; intros db Hre Hi Hdel;
    [exact Hi|].
  destruct (app_row_kept req now db i p Hre Hi) as (p1 & H1 & Ht).
  rewrite (transition_deleted _ _ _ _ Ht Hdel) in H1.
  apply IH; [now constructor|exact H1|exact Hdel].
Qed.

(** In every later store the only row with the id of a deleted person is
    that person's row, as it was. *)
Lemma deleted_id_stays (reqs : list (Request * Z)) (db : DB) (p q : Person.t) :
  reachable db ->
  In p (person db) -> Person.deleted_at p <> None ->
  In q (person (run reqs db)) -> Person.id q = Person.id p ->
  q = p.
Proof.
  intros Hre Hp Hdel Hq Hid.
  destruct (In_nth_error _ _ Hp) as (i & Hi).
  pose proof (run_row_kept reqs db i p Hre Hi Hdel) as Hr.
  apply nth_error_In in Hr.
  pose proof (reachable_ok _ (run_reachable reqs db Hre)) as Hok.
  now apply (NoDup_map_inj Person.id (person (run reqs db)) q p (ok_nodup _ Hok)).
Qed.

Lemma delete_person_answered (person_id now : Z) (db : DB) (status_code : Z)
  (body : PersonRead) (db' : DB) :
  delete_person person_id now db = (Success status_code body, db') ->
  exists p,
    In p (person db) /\ Person.id p = person_id /\ Person.deleted_at p = None /\
    db' = update_deleted person_id now db /\
    In (mark_deleted now p) (person db') /\
    assemble (Person.type p) (mark_deleted now p) db' = Some body.
Proof.
  unfold delete_person. destruct (find _ _) as [p|] eqn:E; [|discriminate].
  apply find_some in E. destruct E as (Hin & E).
  apply andb_prop in E. destruct E as (E1 & E2). apply Z.eqb_eq in E1.
  destruct (assemble _ _ _) as [b|] eqn:Ea; [|discriminate].
  intros [= <- <- <-]. exists p. subst person_id.
  repeat split; auto.
  - now destruct (Person.deleted_at p).
  - unfold update_deleted. simpl. apply in_map_iff. exists p.
    now rewrite Z.eqb_refl.
Qed.

Lemma delete_person_reachable (person_id now : Z) (db : DB) :
  reachable db -> reachable (snd (delete_person person_id now db)).
Proof.
  intros H. pose proof (reachable_step db (DELETE_persons person_id) now H) as Hs.
  simpl in Hs. now destruct (delete_person person_id now db).
Qed.

(** X10.  A person whose [deleted_at] is set is in no listing, whatever
    the filters and the page, neither now nor after any further requests. *)
Theorem deleted_never_listed (db : DB) (p : Person.t) :
  reachable db ->
  In p (person db) -> Person.deleted_at p <> None ->
  forall reqs f pagination l,
    list_persons f pagination (run reqs db) = Success 200 l ->
    ~ In (Person.id p) (item_ids l).
Proof.
  intros Hre Hp Hdel reqs f pg l H Hin.
  apply list_persons_answer in H. destruct H as (_ & _ & HF).
  unfold item_ids in Hin. rewrite (item_ids_page _ _ _ HF) in Hin.
  apply in_map_iff in Hin. destruct Hin as (q & Hid & Hq).
  apply page_In, list_query_sound in Hq. destruct Hq as (Hq & Hnull & _).
  rewrite (deleted_id_stays reqs db p q Hre Hp Hdel Hq Hid) in Hnull.
  contradiction.
Qed.

Lemma deleted_never_listed_witness :
  ~ In 1 (item_ids
            (answer_of
               (list_persons no_filter default_page
                  (run [(POST_persons (natural_person_data "Bob"), 301)] deleted_db)))).
Proof.
  apply (deleted_never_listed deleted_db
           (Person.Build 1 "natural" true 100 200 (Some 200))
           (run_reachable _ _ wonderland_reachable))
    with (reqs := [(POST_persons (natural_person_data "Bob"), 301)])
         (f := no_filter) (pagination := default_page).
  - vm_compute. auto.
  - discriminate.
  - vm_compute. reflexivity.
Defined.

(** X11.  Once the delete of an id has been answered 200, every later
    delete of that id, whatever was requested in between, is answered 404
    "Person not found" and changes nothing. *)
Theorem delete_person_once (db : DB) (person_id now : Z) (body : PersonRead)
  (db' : DB) :
  reachable db ->
  delete_person person_id now db = (Success 200 body, db') ->
  forall reqs now',
    delete_person person_id now' (run reqs db')
    = (HTTPException 404 "Person not found", run reqs db').
Proof.
  intros Hre H reqs now'.
  pose proof (delete_person_reachable person_id now db Hre) as Hre'.
  rewrite H in Hre'. simpl in Hre'.
  apply delete_person_answered in H.
  destruct H as (p & Hin & Hid & Hnull & _ & Hin' & _).
  unfold delete_person. destruct (find _ _) as [q|] eqn:E; [|reflexivity].
  exfalso. apply find_some in E. destruct E as (Hq & E).
  apply andb_prop in E. destruct E as (E1 & E2). apply Z.eqb_eq in E1.
  assert (Hqp : q = mark_deleted now p).
  { apply (deleted_id_stays reqs db' (mark_deleted now p) q Hre' Hin');
      [discriminate|exact Hq|]. simpl. congruence. }
  subst q. discriminate E2.
Qed.

Lemma delete_person_once_witness :
  delete_person 1 400
    (run [(POST_persons (natural_person_data "Bob"), 301)] deleted_db)
  = (HTTPException 404 "Person not found",
     run [(POST_persons (natural_person_data "Bob"), 301)] deleted_db).
Proof.
  apply (delete_person_once wonderland_db 1 200
           (match fst (delete_person 1 200 wonderland_db) with
            | Success _ b => b
            | _ => PersonReadNatural (read_base (new_person "" true 0 empty_db))
                     (NaturalPersonDetailsRead.Build 0 "" "" "" "" None None 0 "")
            end)
           deleted_db wonderland_reachable).
  vm_compute. reflexivity.
Defined.

(** ** Creating and listing *)

Lemma Forall2_In_l {A B : Type} (R : A -> B -> Prop) (l : list A) (l' : list B)
  (a : A) :
  Forall2 R l l' -> In a l -> exists b, In b l' /\ R a b.
Proof.
  induction 1 as [|x y l l' Hxy _ IH]; simpl; [intros []|].
  intros [<-|Ha]; [eauto|]. destruct (IH Ha) as (b & Hb & Hab). eauto.
Qed.

Lemma Forall2_In_r {A B : Type} (R : A -> B -> Prop) (l : list A) (l' : list B)
  (b : B) :
  Forall2 R l l' -> In b l' -> exists a, In a l /\ R a b.
Proof.
  induction 1 as [|x y l l' Hxy _ IH]; simpl; [intros []|].
  intros [<-|Hb]; [eauto|]. destruct (IH Hb) as (a & Ha & Hab). eauto.
Qed.

Lemma create_person_answered (p : PersonCreate.t) (now : Z) (db : DB)
  (status_code : Z) (body : PersonRead) (db' : DB) :
  create_person p now db = (Success status_code body, db') ->
  status_code = 201 /\
  exists a,
    PersonCreate.active p = Some a /\
    person db' = (person db ++ [new_person (PersonCreate.type p) a now db])%list /\
    assemble (PersonCreate.type p) (new_person (PersonCreate.type p) a now db) db'
    = Some body.
Proof.
  unfold create_person, insert_person, created.
  destruct (PersonCreate.active p) as [a|]; [|discriminate].
  destruct (String.eqb (PersonCreate.type p) "natural").
  - destruct (PersonCreate.details p); [|discriminate].
    destruct (assemble _ _ _) as [b|] eqn:Ea; [|discriminate].
    intros [= <- <- <-]. split; [reflexivity|]. exists a. auto.
  - destruct (String.eqb (PersonCreate.type p) "juridical"); [|discriminate].
    destruct (PersonCreate.details p); [discriminate|].
    destruct (assemble _ _ _) as [b|] eqn:Ea; [|discriminate].
    intros [= <- <- <-]. split; [reflexivity|]. exists a. auto.
Qed.

Lemma app_create_answered (r : RawPersonCreate.t) (now : Z) (db : DB)
  (status_code : Z) (body : PersonRead) (db' : DB) :
  app (POST_persons r) now db = (Success status_code (PersonBody body), db') ->
  exists p a,
    validate_PersonCreate r = Some p /\
    PersonCreate.active p = Some a /\
    person db' = (person db ++ [new_person (PersonCreate.type p) a now db])%list /\
    assemble (PersonCreate.type p) (new_person (PersonCreate.type p) a now db) db'
    = Some body.
Proof.
  simpl. destruct (validate_PersonCreate r) as [p|]; [|discriminate].
  destruct (create_person p now db) as [resp d] eqn:E.
  destruct resp as [c b| | |]; simpl; try discriminate.
  intros [= <- <- <-].
  apply create_person_answered in E. destruct E as (_ & a & Ha & Hp & Hb).
  exists p, a. auto.
Qed.

Lemma app_reachable (req : Request) (now : Z) (db : DB) (resp : Response Body)
  (db' : DB) :
  reachable db -> app req now db = (resp, db') -> reachable db'.
Proof.
  intros Hre H. pose proof (reachable_step db req now Hre) as Hs.
  now rewrite H in Hs.
Qed.

(** X12.  After a create that was answered 201, whoever lists the persons
    gets, for the id of the new person, the very response of the create;
    and the unfiltered listing from offset 0 with a limit of at least the
    number of stored persons does hold it. *)
Theorem created_person_listed (r : RawPersonCreate.t) (now : Z) (db : DB)
  (body : PersonRead) (db' : DB) :
  reachable db ->
  app (POST_persons r) now db = (Success 201 (PersonBody body), db') ->
  (forall f pagination l it,
     list_persons f pagination db' = Success 200 l ->
     In it (PersonList.items l) ->
     PersonBase.id (base_of it) = PersonBase.id (base_of body) ->
     it = body) /\
  (forall pagination l,
     list_persons no_filter pagination db' = Success 200 l ->
     Pagination.skip pagination <= 0 ->
     Z.of_nat (List.length (person db')) <= Pagination.limit pagination ->
     In body (PersonList.items l)).
Proof.
  intros Hre H.
  pose proof (reachable_ok _ (app_reachable _ _ _ _ _ Hre H)) as Hok.
  apply app_create_answered in H. destruct H as (p & a & _ & _ & Hp & Hb).
  set (np := new_person (PersonCreate.type p) a now db) in *.
  assert (Hnp : In np (person db')) by (rewrite Hp; apply in_or_app; right; now left).
  split.
  - intros f pg l it Hl Hit Hid.
    apply list_persons_answer in Hl. destruct Hl as (_ & _ & HF).
    destruct (Forall2_In_r _ _ _ _ HF Hit) as (q & Hq & Hqa).
    apply page_In, list_query_sound in Hq. destruct Hq as (Hq & _).
    assert (q = np) as ->.
    { apply (NoDup_map_inj Person.id (person db') q np (ok_nodup _ Hok) Hq Hnp).
      pose proof (assemble_base _ _ _ _ Hqa) as E1.
      pose proof (assemble_base _ _ _ _ Hb) as E2.
      rewrite E1, E2 in Hid. exact Hid. }
    change (Person.type np) with (PersonCreate.type p) in Hqa. congruence.
  - intros pg l Hl Hskip Hlimit.
    apply list_persons_answer in Hl. destruct Hl as (_ & _ & HF).
    assert (Hrows : list_query no_filter db'
                    = filter (fun q => is_null (Person.deleted_at q)) (person db'))
      by reflexivity.
    rewrite Hrows, page_nodup in HF
      by (apply NoDup_ids_filter, (ok_nodup _ Hok)).
    replace (Z.to_nat (Pagination.skip pg)) with 0%nat in HF by lia.
    rewrite skipn_O, firstn_all2 in HF.
    + assert (Hin : In np (order_by_id
                             (filter (fun q => is_null (Person.deleted_at q))
                                (person db')))).
      { apply order_by_id_In, filter_In. split; [exact Hnp|reflexivity]. }
      destruct (Forall2_In_l _ _ _ _ HF Hin) as (it & Hit & Ha).
      change (Person.type np) with (PersonCreate.type p) in Ha. congruence.
    + rewrite (Permutation_length (order_by_id_perm _)).
      pose proof (filter_length_le (fun q => is_null (Person.deleted_at q))
                    (person db')). lia.
Qed.

Lemma created_person_listed_witness :
  In (person_of (fst (app (POST_persons (juridical_person_data "Globex")) 7
                        wonderland_db)))
    (PersonList.items
       (answer_of
          (list_persons no_filter default_page
             (snd (app (POST_persons (juridical_person_data "Globex")) 7
                     wonderland_db))))).
Proof.
  apply (proj2 (created_person_listed (juridical_person_data "Globex") 7
                  wonderland_db _ _ wonderland_reachable eq_refl) default_page).
  - vm_compute. reflexivity.
  - vm_compute. discriminate.
  - vm_compute. discriminate.
Defined.

(** ** How creating and deleting move the total *)

Lemma matching_persons_selects (f : PersonFilter.t) (db : DB) :
  PersonFilter.name (in_effect f) = None ->
  matching_persons (in_effect f) db
  = filter (fun q => is_null (Person.deleted_at q)
                     && selects f (Person.type q) (Person.active q))
      (person db).
Proof.
  intros Hn. unfold matching_persons. rewrite Hn. apply filter_ext. intros q.
  unfold selects, in_effect. simpl.
  now rewrite andb_true_r, andb_assoc.
Qed.

Lemma list_persons_total_selects (f : PersonFilter.t) (pagination : Pagination.t)
  (db : DB) (l : PersonList.t) :
  PersonFilter.name (in_effect f) = None ->
  list_persons f pagination db = Success 200 l ->
  PersonList.total l
  = Z.of_nat (List.length
                (filter (fun q => is_null (Person.deleted_at q)
                                  && selects f (Person.type q) (Person.active q))
                   (person db))).
Proof.
  intros Hn H. apply list_persons_answer in H. destruct H as (_ & -> & _).
  now rewrite (list_query_without_name f db Hn), (matching_persons_selects f db Hn).
Qed.

Lemma map_unmarked (pid now : Z) (l : list Person.t) :
  ~ In pid (map Person.id l) ->
  map (fun q => if Person.id q =? pid then mark_deleted now q else q) l = l.
Proof.
  induction l as [|x l IH]; simpl; intros H; [reflexivity|].
  destruct (Z.eqb_spec (Person.id x) pid) as [E|E]; [tauto|].
  rewrite IH; tauto.
Qed.

Lemma filter_mark_count (sel : string -> bool -> bool) (now : Z) (p0 : Person.t)
  (l : list Person.t) :
  NoDup (map Person.id l) -> In p0 l -> Person.deleted_at p0 = None ->
  List.length
    (filter (fun q => is_null (Person.deleted_at q)
                      && sel (Person.type q) (Person.active q)) l)
  = Nat.add
      (List.length
         (filter (fun q => is_null (Person.deleted_at q)
                           && sel (Person.type q) (Person.active q))
            (map (fun q => if Person.id q =? Person.id p0
                           then mark_deleted now q else q) l)))
      (if sel (Person.type p0) (Person.active p0) then 1%nat else 0%nat).
Proof.
  induction l as [|x l IH]; simpl; [intros _ []|].
  intros Hnd Hin Hnull. inversion Hnd as [|? ? Hx Hl]; subst.
  destruct Hin as [->|Hin].
  - rewrite Z.eqb_refl, (map_unmarked _ _ _ Hx). simpl. rewrite Hnull. simpl.
    destruct (sel (Person.type p0) (Person.active p0)); simpl; lia.
  - destruct (Z.eqb_spec (Person.id x) (Person.id p0)) as [E|E].
    + exfalso. apply Hx. rewrite E. now apply in_map.
    + specialize (IH Hl Hin Hnull).
      destruct (is_null (Person.deleted_at x)
                && sel (Person.type x) (Person.active x))%bool; simpl; lia.
Qed.

(** X13.  For a listing without a name filter in effect, the total after
    a create that was answered 201 is the total before, plus one exactly
    when the filters select the type and the [active] value of the new
    person. *)
Theorem create_moves_total (r : RawPersonCreate.t) (now : Z) (db : DB)
  (body : PersonRead) (db' : DB) :
  reachable db ->
  app (POST_persons r) now db = (Success 201 (PersonBody body), db') ->
  forall f pagination pagination' l l',
    PersonFilter.name (in_effect f) = None ->
    list_persons f pagination db = Success 200 l ->
    list_persons f pagination' db' = Success 200 l' ->
    PersonList.total l'
    = PersonList.total l
      + if selects f (PersonBase.type (base_of body)) (PersonBase.active (base_of body))
        then 1 else 0.
Proof.
  intros Hre H f pg pg' l l' Hn Hl Hl'.
  apply app_create_answered in H. destruct H as (p & a & _ & _ & Hp & Hb).
  rewrite (list_persons_total_selects f pg db l Hn Hl),
    (list_persons_total_selects f pg' db' l' Hn Hl'), Hp, filter_app, length_app.
  rewrite (assemble_base _ _ _ _ Hb). simpl.
  destruct (selects f (PersonCreate.type p) a); simpl; lia.
Qed.

Lemma create_moves_total_witness :
  PersonList.total
    (answer_of
       (list_persons (PersonFilter.Build (Some "juridical") None None) default_page
          (snd (app (POST_persons (juridical_person_data "Globex")) 7 wonderland_db))))
  = PersonList.total
      (answer_of
         (list_persons (PersonFilter.Build (Some "juridical") None None)
            (Pagination.Build 5 1) wonderland_db))
    + 1.
Proof.
  apply (create_moves_total (juridical_person_data "Globex") 7 wonderland_db _ _
           wonderland_reachable eq_refl
           (PersonFilter.Build (Some "juridical") None None)
           (Pagination.Build 5 1) default_page).
  - reflexivity.
  - vm_compute. reflexivity.
  - vm_compute. reflexivity.
Defined.

(** X14.  For a listing without a name filter in effect, the total before
    a delete that was answered 200 is the total after, plus one exactly
    when the filters select the type and the [active] value of the deleted
    person. *)
Theorem delete_moves_total (person_id now : Z) (db : DB) (body : PersonRead)
  (db' : DB) :
  reachable db ->
  delete_person person_id now db = (Success 200 body, db') ->
  forall f pagination pagination' l l',
    PersonFilter.name (in_effect f) = None ->
    list_persons f pagination db = Success 200 l ->
    list_persons f pagination' db' = Success 200 l' ->
    PersonList.total l
    = PersonList.total l'
      + if selects f (PersonBase.type (base_of body)) (PersonBase.active (base_of body))
        then 1 else 0.
Proof.
  intros Hre H f pg pg' l l' Hn Hl Hl'.
  pose proof (reachable_ok db Hre) as Hok.
  apply delete_person_answered in H.
  destruct H as (p & Hin & <- & Hnull & -> & _ & Hb).
  rewrite (list_persons_total_selects f pg db l Hn Hl),
    (list_persons_total_selects f pg' _ l' Hn Hl').
  unfold update_deleted. simpl.
  rewrite (filter_mark_count (selects f) now p (person db) (ok_nodup _ Hok) Hin Hnull).
  rewrite (assemble_base _ _ _ _ Hb). simpl.
  destruct (selects f (Person.type p) (Person.active p)); simpl; lia.
Qed.

Lemma delete_moves_total_witness :
  PersonList.total (answer_of (list_persons no_filter default_page wonderland_db))
  = PersonList.total (answer_of (list_persons no_filter default_page deleted_db)) + 1.
Proof.
  apply (delete_moves_total 1 200 wonderland_db
           (match fst (delete_person 1 200 wonderland_db) with
            | Success _ b => b
            | _ => person_of InternalServerError
            end)
           deleted_db wonderland_reachable)
    with (f := no_filter) (pagination := default_page) (pagination' := default_page).
  - vm_compute. reflexivity.
  - reflexivity.
  - vm_compute. reflexivity.
  - vm_compute. reflexivity.
Defined.

(** ** One detail row per person *)














(** ** What the application answers *)





Lemma ilike_contains_ci_witness :
  Str.ilike "Wonderland LLC" "%wonder%" = Str.contains_ci "Wonderland LLC" "wonder".
Proof.
  apply (ilike_contains_ci "Wonderland LLC" "wonder"). reflexivity.
Defined.
